(** * backup2db: the lookup contracts of [backup2db.py] on a shallow embedding

    The development follows the layout of the script:
    - [Py]      the pieces of the Python runtime the script relies on
                ([str.split], [int] on text, [os.path.join], slicing, [str] of an int);
    - [Version] the frozen dataclass [iOSVersion] and its comparison methods;
    - [Env]     what the script reads from the outside (files, plists, the SQLite
                index) and the trace of what a run does to the outside;
    - [Backup]  [is_backup_compatible], [find_ios_backup_file],
                [get_app_folders_from_backup] and [main];
    - [Spec]    the notions the statements are phrased with;
    - the properties C1 to C10 of the specification, one theorem each.

    Conventions.  A Python [str] is a [string]; one [ascii] stands for one
    character.  A Python [int] is a [Z].  Paths follow [posixpath].  A run is
    a pair of the trace of its events and its result, which is a value or the
    exception that ended it; [exit(n)] is the exception [SystemExit n]. *)

From Stdlib Require Import ZArith List String Ascii Bool Lia.
From Stdlib Require Import Decimal DecimalString.
From Stdlib Require DecimalPos.
Import ListNotations.

Local Open Scope string_scope.
Local Open Scope Z_scope.

(* ================================================================== *)
(** ** Python runtime *)

Module Py.

(** Exceptions are told apart by class, because [except] clauses are.
    [OperationalError] is a subclass of [DatabaseError] in [sqlite3]; the
    script only ever names the subclass.  [exit(n)] raises [SystemExit]. *)
Inductive exn : Type :=
| ValueError
| AttributeError
| OperationalError
| DatabaseError
| SystemExit (code : Z).

Inductive result (A : Type) : Type :=
| Ok (a : A)
| Raise (e : exn).
Arguments Ok {A} a.
Arguments Raise {A} e.

Definition rbind {A B} (m : result A) (k : A -> result B) : result B :=
  match m with
  | Ok a => k a
  | Raise e => Raise e
  end.

(** *** Values

    What [plistlib.loads] can hand back, as far as the script looks at it.
    Reals, dates, byte strings and UIDs are [VOther]: the script only asks
    whether a value is text. *)
#[warnings="-register-all"]
Inductive value : Type :=
| VNone
| VStr (s : string)
| VInt (z : Z)
| VBool (b : bool)
| VList (l : list value)
| VDict (d : list (string * value))
| VOther.

(** *** Characters and text *)

Definition newline : string := String (ascii_of_nat 10) "".

Definition is_sep (c : ascii) : bool := Ascii.eqb c "/".

Definition startswith_sep (s : string) : bool :=
  match s with
  | String c _ => is_sep c
  | EmptyString => false
  end.

Fixpoint endswith_sep (s : string) : bool :=
  match s with
  | EmptyString => false
  | String c EmptyString => is_sep c
  | String _ s' => endswith_sep s'
  end.

Definition is_empty (s : string) : bool :=
  match s with
  | EmptyString => true
  | String _ _ => false
  end.

(** [s[:n]] *)
Fixpoint slice_to (n : nat) (s : string) : string :=
  match n, s with
  | S n', String c s' => String c (slice_to n' s')
  | _, _ => EmptyString
  end.

(** [sep.join(l)] *)
Fixpoint str_join (sep : string) (l : list string) : string :=
  match l with
  | [] => ""
  | [x] => x
  | x :: l' => x ++ sep ++ str_join sep l'
  end.

(** [s.split(".")]: every dot separates, empty pieces are kept, and the
    result always has at least one piece. *)
Fixpoint split_dot (s : string) : list string :=
  match s with
  | EmptyString => [""]
  | String c s' =>
      if Ascii.eqb c "."
      then "" :: split_dot s'
      else match split_dot s' with
           | p :: ps => String c p :: ps
           | [] => [String c ""]
           end
  end.

(** *** [int(text)] in base 10

    CPython's conversion of text to an int, on characters below U+0100:
    leading blanks, one optional sign, decimal digits in which single
    underscores may sit between two digits, trailing blanks, end of text;
    then the interpreter's cap on the number of digits (4300 unless the
    interpreter is told otherwise, which the script does not do).  Anything
    else is a [ValueError].  The blanks are tab, line feed, vertical tab, form
    feed, carriage return, space, U+0085 and U+00A0; no character from U+0080
    to U+00FF is a decimal digit. *)

Definition is_space (c : ascii) : bool :=
  let n := nat_of_ascii c in
  (Nat.eqb n 32 || (Nat.leb 9 n && Nat.leb n 13)
   || Nat.eqb n 133 || Nat.eqb n 160)%bool.

Definition digit_value (c : ascii) : option Z :=
  let n := nat_of_ascii c in
  if (Nat.leb 48 n && Nat.leb n 57)%bool then Some (Z.of_nat n - 48) else None.

Fixpoint skip_spaces (s : string) : string :=
  match s with
  | String c s' => if is_space c then skip_spaces s' else s
  | EmptyString => EmptyString
  end.

(** [sys.get_int_max_str_digits()] as the interpreter starts. *)
Definition MAX_STR_DIGITS : nat := 4300.

(** The digit loop: [prev] is the character consumed last ([None] before the
    first one) and [digits] counts the digits seen, underscores left out.  It
    stops at the first character that is neither a digit nor an underscore
    and hands back what is left. *)
Fixpoint scan_digits (s : string) (prev : option ascii) (acc : Z) (digits : nat)
  : option (Z * nat * option ascii * string) :=
  match s with
  | EmptyString => Some (acc, digits, prev, EmptyString)
  | String c s' =>
      if Ascii.eqb c "_" then
        match prev with
        | Some p =>
            if Ascii.eqb p "_" then None else scan_digits s' (Some c) acc digits
        | None => scan_digits s' (Some c) acc digits
        end
      else
        match digit_value c with
        | Some d => scan_digits s' (Some c) (10 * acc + d) (S digits)
        | None => Some (acc, digits, prev, s)
        end
  end.

Definition int_unsigned (s : string) : result Z :=
  match s with
  | String c _ =>
      if Ascii.eqb c "_" then Raise ValueError
      else
        match scan_digits s None 0 0 with
        | None => Raise ValueError
        | Some (_, _, None, _) => Raise ValueError
        | Some (v, digits, Some p, rest) =>
            if Ascii.eqb p "_" then Raise ValueError
            else if is_empty (skip_spaces rest) then
              if Nat.ltb MAX_STR_DIGITS digits then Raise ValueError else Ok v
            else Raise ValueError
        end
  | EmptyString => Raise ValueError
  end.

Definition int_of_str (s : string) : result Z :=
  match skip_spaces s with
  | String c s' =>
      if Ascii.eqb c "+" then int_unsigned s'
      else if Ascii.eqb c "-" then rbind (int_unsigned s') (fun v => Ok (- v))
      else int_unsigned (String c s')
  | EmptyString => Raise ValueError
  end.

(** [str(n)] for an int.  The same cap applies to this direction, but the
    script prints only components that came out of [int], which are within
    it. *)
Definition str_of_int (z : Z) : string := NilZero.string_of_int (Z.to_int z).

(** *** [os.path.join] (posixpath)

    A component that starts with the separator discards what came before;
    a separator is inserted only after a non-empty prefix that does not
    already end with one. *)
Definition join_step (path b : string) : string :=
  if startswith_sep b then b
  else if (is_empty path || endswith_sep path)%bool then path ++ b
  else path ++ "/" ++ b.

Definition os_path_join (a : string) (p : list string) : string :=
  fold_left join_step p a.

End Py.
Import Py.


(* ================================================================== *)
(** ** The dataclass [iOSVersion] *)

Module Version.

(** The three annotated fields.  They have no class-level default, so an
    attribute exists on an instance only once [__init__] has assigned it. *)
Record iOSVersion : Type := mkVersion {
  major : Z;
  minor : Z;
  bugfix : Z
}.

(** [__init__] assigns the three attributes together (text argument) or none
    at all (any other argument), so an instance that left the constructor is
    in one of two states. *)
Inductive instance : Type :=
| NoAttrs
| Attrs (v : iOSVersion).

(** [parts[i]] guarded by [len(parts) > i], as in the constructor. *)
Definition part_or_zero (parts : list string) (i : nat) : result Z :=
  match nth_error parts i with
  | Some p => int_of_str p
  | None => Ok 0
  end.

(** [iOSVersion(major)] with [minor] and [bugfix] left at their defaults,
    which is how the script always calls it. *)
Definition init (arg : value) : result instance :=
  match arg with
  | VStr s =>
      let parts := split_dot s in
      rbind (int_of_str (hd "" parts)) (fun ma =>
      rbind (part_or_zero parts 1) (fun mi =>
      rbind (part_or_zero parts 2) (fun bf =>
      Ok (Attrs (mkVersion ma mi bf)))))
  | _ => Ok NoAttrs
  end.

(** Python compares tuples item by item: the first position where the items
    differ decides, and with no such position the lengths decide. *)
Fixpoint tuple_eq (a b : list Z) : bool :=
  match a, b with
  | [], [] => true
  | x :: a', y :: b' => (x =? y) && tuple_eq a' b'
  | _, _ => false
  end.

Fixpoint tuple_lt (a b : list Z) : bool :=
  match a, b with
  | x :: a', y :: b' => if x =? y then tuple_lt a' b' else x <? y
  | [], _ :: _ => true
  | _, [] => false
  end.

Fixpoint tuple_gt (a b : list Z) : bool :=
  match a, b with
  | x :: a', y :: b' => if x =? y then tuple_gt a' b' else x >? y
  | _ :: _, [] => true
  | [], _ => false
  end.

Definition as_tuple (v : iOSVersion) : list Z := [major v; minor v; bugfix v].

(** Reading [self.major] and friends. *)
Definition attrs (o : instance) : result iOSVersion :=
  match o with
  | Attrs v => Ok v
  | NoAttrs => Raise AttributeError
  end.

(** The comparison methods, on instances that carry their attributes ... *)
Definition eqb (a b : iOSVersion) : bool := tuple_eq (as_tuple a) (as_tuple b).
Definition ltb (a b : iOSVersion) : bool := tuple_lt (as_tuple a) (as_tuple b).
Definition leb (a b : iOSVersion) : bool := ltb a b || eqb a b.
Definition gtb (a b : iOSVersion) : bool := tuple_gt (as_tuple a) (as_tuple b).
Definition geb (a b : iOSVersion) : bool := gtb a b || eqb a b.

(** ... and as the interpreter runs them on arbitrary instances: both tuples
    are built before they are compared, so a missing attribute on either
    side is an [AttributeError]. *)
Definition __eq__ (self other : instance) : result bool :=
  rbind (attrs self) (fun s => rbind (attrs other) (fun o => Ok (eqb s o))).

Definition __lt__ (self other : instance) : result bool :=
  rbind (attrs self) (fun s => rbind (attrs other) (fun o => Ok (ltb s o))).

Definition __gt__ (self other : instance) : result bool :=
  rbind (attrs self) (fun s => rbind (attrs other) (fun o => Ok (gtb s o))).

Definition __le__ (self other : instance) : result bool :=
  rbind (__lt__ self other) (fun b => if b then Ok true else __eq__ self other).

Definition __ge__ (self other : instance) : result bool :=
  rbind (__gt__ self other) (fun b => if b then Ok true else __eq__ self other).

Definition __str__ (self : instance) : result string :=
  rbind (attrs self) (fun v =>
    Ok (str_of_int (major v) ++ "." ++ str_of_int (minor v) ++ "." ++ str_of_int (bugfix v))).

(** The order the specification talks about: lexicographic on the triple. *)
Definition lex_lt (a b : iOSVersion) : Prop :=
  major a < major b \/
  (major a = major b /\
   (minor a < minor b \/ (minor a = minor b /\ bugfix a < bugfix b))).

Definition lex_le (a b : iOSVersion) : Prop := lex_lt a b \/ a = b.

End Version.
Import Version.

(* ================================================================== *)
(** ** The outside world *)

Module Env.

(** A row of the table [Files(fileID TEXT, domain TEXT, relativePath TEXT)].
    The three columns hold text, as declared; NULLs and blobs are not
    modelled. *)
Record entry : Type := mkEntry {
  fileID : string;
  domain : string;
  relativePath : string
}.

(** What [open(...).read()] followed by [plistlib.loads] does on a path that
    exists: the file cannot be read, it is not a property list, or it loads.
    The text carried by the first two is the exception's message. *)
Inductive plist_file : Type :=
| Unreadable (e : string)
| Malformed (e : string)
| Loaded (info : value).

(** What SQLite finds at a path that exists.
    - [CannotOpen]: [sqlite3.connect] itself raises [OperationalError]
      (a directory, no permission);
    - [NotADatabase]: the first statement raises [DatabaseError]
      ("file is not a database");
    - [SchemaMismatch]: the statement raises [OperationalError]
      ("no such table: Files", "no such column: ...");
    - [Files rows]: the table, in the order the index hands rows back. *)
Inductive database : Type :=
| CannotOpen
| NotADatabase
| SchemaMismatch
| Files (rows : list entry).

Record world : Type := mkWorld {
  abspath : string -> string;          (* os.path.abspath, for the current directory *)
  on_disk : string -> bool;            (* is there something at this path *)
  plist_at : string -> plist_file;
  sqlite_at : string -> database
}.

(** [os.path.exists]: the empty path never exists. *)
Definition os_path_exists (w : world) (p : string) : bool :=
  negb (is_empty p) && on_disk w p.

(** The two statements of the script with their bound parameters. *)
Inductive statement : Type :=
| SelectByPath (p1 p2 : string)   (* WHERE relativePath = ? OR domain || '-' || relativePath = ? *)
| SelectByDomain (d : string).    (* WHERE domain = ? *)

Definition selects (q : statement) (e : entry) : bool :=
  match q with
  | SelectByPath p1 p2 =>
      String.eqb (relativePath e) p1 || String.eqb (domain e ++ "-" ++ relativePath e) p2
  | SelectByDomain d => String.eqb (domain e) d
  end.

Definition connect (db : database) : result unit :=
  match db with
  | CannotOpen => Raise OperationalError
  | _ => Ok tt
  end.

(** [cur.execute(q, params)] followed by fetching: the selected rows, in
    table order. *)
Definition execute (db : database) (q : statement) : result (list entry) :=
  match db with
  | Files rows => Ok (filter (selects q) rows)
  | SchemaMismatch => Raise OperationalError
  | CannotOpen => Raise OperationalError
  | NotADatabase => Raise DatabaseError
  end.

(** What a run does to the outside, in order.  [Call] marks the entry into
    one of the script's three functions. *)
Inductive event : Type :=
| Call (f : string) (args : list string)
| Exists (p : string)
| ReadFile (p : string)
| Connect (p : string)
| Execute (q : statement)
| Close
| Print (line : string).

(** A computation: the trace so far and either a value or the exception
    that ended it. *)
Definition M (A : Type) : Type := (list event * result A)%type.

Definition ret {A} (a : A) : M A := ([], Ok a).
Definition raise {A} (e : exn) : M A := ([], Raise e).
Definition emit (e : event) : M unit := ([e], Ok tt).
Definition lift {A} (r : result A) : M A := ([], r).
Definition exit {A} (code : Z) : M A := raise (SystemExit code).

Definition bind {A B} (m : M A) (k : A -> M B) : M B :=
  match m with
  | (t, Ok a) => let (t', r) := k a in ((t ++ t')%list, r)
  | (t, Raise e) => (t, Raise e)
  end.

Definition trace {A} (m : M A) : list event := fst m.
Definition outcome {A} (m : M A) : result A := snd m.

End Env.
Import Env.

Notation "x <- m ;; k" := (bind m (fun x => k))
  (at level 61, m at next level, right associativity).
Notation "m >> k" := (bind m (fun _ => k))
  (at level 61, right associativity).

(* ================================================================== *)
(** ** The script *)

Module Backup.

Definition TARGET_BACKUP_INFO_KEY : string := "Product Version".

(** [iOSVersion("11.0")], evaluated when the module is loaded. *)
Definition TARGET_BACKUP_MIN_VER : instance :=
  match init (VStr "11.0") with
  | Ok v => v
  | Raise _ => NoAttrs
  end.

(** [info.get(key)]: only a dict has [get]; a missing key gives [None].
    The pairs are the items of the loaded dict, whose keys are distinct. *)
Definition dict_get (info : value) (key : string) : result value :=
  match info with
  | VDict d =>
      match find (fun kv => String.eqb (fst kv) key) d with
      | Some kv => Ok (snd kv)
      | None => Ok VNone
      end
  | _ => Raise AttributeError
  end.

Definition is_backup_compatible (w : world) (backup_dir : string)
  : M (bool * option instance) :=
  emit (Call "is_backup_compatible" [backup_dir]) >>
  let backup_info := abspath w (os_path_join backup_dir ["Info.plist"]) in
  emit (Exists backup_info) >>
  if negb (os_path_exists w backup_info) then
    emit (Print ("[!] Info.plist: not found in " ++ backup_dir)) >>
    ret (false, None)
  else
    emit (ReadFile backup_info) >>
    match plist_at w backup_info with
    | Unreadable e | Malformed e =>
        emit (Print ("[!] Info.plist: " ++ e)) >>
        ret (false, None)
    | Loaded info =>
        key <- lift (dict_get info TARGET_BACKUP_INFO_KEY) ;;
        target_version <- lift (init key) ;;
        ok <- lift (__le__ TARGET_BACKUP_MIN_VER target_version) ;;
        ret (ok, Some target_version)
    end.

(** [os.path.join(backup_dir, file_id[:2], file_id)] *)
Definition backup_file (backup_dir file_id : string) : string :=
  os_path_join backup_dir [slice_to 2 file_id; file_id].

Definition find_ios_backup_file (w : world) (backup_dir ios_path : string)
  : M (option string) :=
  emit (Call "find_ios_backup_file" [backup_dir; ios_path]) >>
  let manifest_db := abspath w (os_path_join backup_dir ["Manifest.db"]) in
  emit (Exists manifest_db) >>
  if negb (os_path_exists w manifest_db) then
    emit (Print ("[!] Manifest.db not found in " ++ backup_dir)) >>
    ret None
  else
    emit (Connect manifest_db) >>
    lift (connect (sqlite_at w manifest_db)) >>
    emit (Execute (SelectByPath ios_path ios_path)) >>
    match execute (sqlite_at w manifest_db) (SelectByPath ios_path ios_path) with
    | Raise OperationalError =>
        emit (Print "[!] Could not query Manifest.db â€” is it a valid iTunes backup?") >>
        emit Close >>
        ret None
    | Raise e => raise e
    | Ok rows =>
        emit Close >>
        match rows with
        | [] => ret None
        | row :: _ =>
            let file_id := fileID row in
            let subdir := slice_to 2 file_id in
            let file_path := os_path_join backup_dir [subdir; file_id] in
            emit (Exists file_path) >>
            if os_path_exists w file_path then ret (Some file_path)
            else
              emit (Print ("[!] Expected file not found at " ++ file_path)) >>
              ret None
        end
    end.

Definition get_app_folders_from_backup (w : world) (backup_dir bundle_identifier : string)
  : M (option (list (string * string))) :=
  emit (Call "get_app_folders_from_backup" [backup_dir; bundle_identifier]) >>
  let manifest_db := abspath w (os_path_join backup_dir ["Manifest.db"]) in
  emit (Exists manifest_db) >>
  if negb (os_path_exists w manifest_db) then
    emit (Print ("[!] Manifest.db not found in " ++ backup_dir)) >>
    ret None
  else
    emit (Connect manifest_db) >>
    lift (connect (sqlite_at w manifest_db)) >>
    emit (Execute (SelectByDomain bundle_identifier)) >>
    rows <- lift (execute (sqlite_at w manifest_db) (SelectByDomain bundle_identifier)) ;;
    rows <- match rows with
            | [] =>
                let prefixed := "AppDomain-" ++ bundle_identifier in
                emit (Execute (SelectByDomain prefixed)) >>
                lift (execute (sqlite_at w manifest_db) (SelectByDomain prefixed))
            | _ :: _ => ret rows
            end ;;
    match rows with
    | [] =>
        emit (Print ("[!] No files found for " ++ bundle_identifier)) >>
        emit Close >>
        ret None
    | _ :: _ =>
        let backup_paths :=
          map (fun row => (os_path_join backup_dir [slice_to 2 (fileID row); fileID row],
                           relativePath row)) rows in
        emit Close >>
        ret (Some backup_paths)
    end.

(** The parsed command line: [-d], [-b] and [--backup-path]. *)
Record args : Type := mkArgs {
  path : option string;
  bundle : option string;
  search_path : string
}.

(** [f"{ver}"] for the second component of the compatibility result. *)
Definition format_version (ver : option instance) : result string :=
  match ver with
  | None => Ok "None"
  | Some v => __str__ v
  end.

(** Truth value of what the resolvers return. *)
Definition truthy_str (r : option string) : bool :=
  match r with
  | Some s => negb (is_empty s)
  | None => false
  end.

Definition truthy_list {A} (r : option (list A)) : bool :=
  match r with
  | Some (_ :: _) => true
  | _ => false
  end.

Definition main (w : world) (a : args) : M unit :=
  rv <- is_backup_compatible w (search_path a) ;;
  let (result, ver) := rv in
  (if negb result then
     v <- lift (format_version ver) ;;
     m <- lift (__str__ TARGET_BACKUP_MIN_VER) ;;
     emit (Print ("[-] Backup: " ++ v ++ " is not supported (min " ++ m ++ ")")) >>
     exit (-2)
   else ret tt) >>
  match path a, bundle a with
  | Some p, _ =>
      result <- find_ios_backup_file w (search_path a) p ;;
      (if truthy_str result then
         emit (Print ("[+] Found: " ++ match result with Some f => f | None => "None" end)) >>
         exit 0
       else ret tt) >>
      emit (Print "[-] File not found.") >>
      exit (-1)
  | None, Some b =>
      result <- get_app_folders_from_backup w (search_path a) b ;;
      (if truthy_list result then
         emit (Print ("[+] Found:" ++ newline ++
                      str_join newline
                        (map (fun xy => fst xy ++ " -> " ++ snd xy)
                             match result with Some l => l | None => [] end))) >>
         exit 0
       else ret tt) >>
      emit (Print "[-] No paths not found.") >>
      exit (-1)
  | None, None => ret tt
  end.

(** The status the process ends with: the argument of [exit], 0 when [main]
    returns, 1 when an exception reaches the top. *)
Definition exit_status (r : result unit) : Z :=
  match r with
  | Ok _ => 0
  | Raise (SystemExit code) => code
  | Raise _ => 1
  end.

(** An exception other than [SystemExit] left the program. *)
Definition crashed {A} (r : result A) : Prop :=
  match r with
  | Raise (SystemExit _) => False
  | Raise _ => True
  | Ok _ => False
  end.

(** How often a resolver was entered, and how many statements were run. *)
Definition is_resolver_call (e : event) : bool :=
  match e with
  | Call f _ =>
      String.eqb f "find_ios_backup_file" || String.eqb f "get_app_folders_from_backup"
  | _ => false
  end.

Definition is_execute (e : event) : bool :=
  match e with
  | Execute _ => true
  | _ => false
  end.

Definition is_exists (e : event) : bool :=
  match e with
  | Exists _ => true
  | _ => false
  end.

End Backup.
Import Backup.

(* ================================================================== *)
(** ** Notions the statements use *)

Module Spec.

(** The text of a decimal numeral, its last character, and the check the
    digit loop makes on it. *)
Definition numeral (d : uint) : string := NilEmpty.string_of_uint d.

Fixpoint last_char (s : string) (prev : option ascii) : option ascii :=
  match s with
  | EmptyString => prev
  | String c s' => last_char s' (Some c)
  end.

Definition not_underscore (q : option ascii) : Prop :=
  match q with
  | Some c => Ascii.eqb c "_" = false
  | None => True
  end.

(** Where the two artifacts of a backup directory are looked for. *)
Definition info_plist (w : world) (backup_dir : string) : string :=
  abspath w (os_path_join backup_dir ["Info.plist"]).

Definition manifest_db (w : world) (backup_dir : string) : string :=
  abspath w (os_path_join backup_dir ["Manifest.db"]).

(** The backup's [Info.plist] loads as a dict. *)
Definition info_loads (w : world) (backup_dir : string) (d : list (string * value)) : Prop :=
  os_path_exists w (info_plist w backup_dir) = true /\
  plist_at w (info_plist w backup_dir) = Loaded (VDict d).

(** The backup's [Info.plist] reports the version text [s]. *)
Definition reports (w : world) (backup_dir s : string) : Prop :=
  exists d, info_loads w backup_dir d /\
            dict_get (VDict d) TARGET_BACKUP_INFO_KEY = Ok (VStr s).

(** The backup's [Manifest.db] exists and holds the table [rows]. *)
Definition manifest_holds (w : world) (backup_dir : string) (rows : list entry) : Prop :=
  os_path_exists w (manifest_db w backup_dir) = true /\
  sqlite_at w (manifest_db w backup_dir) = Files rows.

(** The condition of the path query, and of the domain query. *)
Definition matches_path (ios_path : string) (e : entry) : Prop :=
  relativePath e = ios_path \/ domain e ++ "-" ++ relativePath e = ios_path.

Definition in_domain (d : string) (e : entry) : bool := String.eqb (domain e) d.

(** The resolved file written out as text:
    backupDir "/" fileID[:2] "/" fileID. *)
Definition template_path (backup_dir file_id : string) : string :=
  backup_dir ++ "/" ++ slice_to 2 file_id ++ "/" ++ file_id.

Fixpoint has_sep (s : string) : bool :=
  match s with
  | EmptyString => false
  | String c s' => is_sep c || has_sep s'
  end.

(** Inputs on which joining and writing out agree: a non-empty directory
    without a trailing separator, a non-empty identifier without any. *)
Definition plain_dir (backup_dir : string) : Prop :=
  is_empty backup_dir = false /\ endswith_sep backup_dir = false.

Definition plain_id (file_id : string) : Prop :=
  is_empty file_id = false /\ has_sep file_id = false.

(** The pair the bundle resolver reports for a row. *)
Definition reported (backup_dir : string) (e : entry) : string * string :=
  (backup_file backup_dir (fileID e), relativePath e).

(** A small world to run the script in: the current directory is [/work],
    the paths in [present] exist, every plist read gives [info] and every
    database opened is [db]. *)
Definition demo_world (info : plist_file) (db : database) (present : list string) : world :=
  {| abspath := fun p => "/work/" ++ p;
     on_disk := fun p => existsb (String.eqb p) present;
     plist_at := fun _ => info;
     sqlite_at := fun _ => db |}.

Definition demo_info (version : string) : plist_file :=
  Loaded (VDict [("Device Name", VStr "phone"); ("Product Version", VStr version)]).

Definition demo_rows : list entry :=
  [ mkEntry "3d0d7e5fb2ce288813306e4d4636395e047a3d28" "HomeDomain" "Library/SMS/sms.db";
    mkEntry "a1b2c3d4e5f60718293a4b5c6d7e8f9012345678" "AppDomain-com.facebook.Facebook" "Documents/a.txt";
    mkEntry "ffeeddccbbaa99887766554433221100ffeeddcc" "AppDomain-com.facebook.Facebook" "Library/SMS/sms.db" ].

(** The rows the bundle resolver ends up with: those of the exact domain if
    there are any, else those of the prefixed domain. *)
Definition exact_rows (bundle_identifier : string) (rows : list entry) : list entry :=
  filter (in_domain bundle_identifier) rows.

Definition prefixed_rows (bundle_identifier : string) (rows : list entry) : list entry :=
  filter (in_domain ("AppDomain-" ++ bundle_identifier)) rows.

Definition chosen_rows (bundle_identifier : string) (rows : list entry) : list entry :=
  match exact_rows bundle_identifier rows with
  | [] => prefixed_rows bundle_identifier rows
  | _ :: _ => exact_rows bundle_identifier rows
  end.

(** Three clauses of the specification read to the letter; each of them
    fails on some input. *)

(** "resolvePath returns the path {backupDir}/{fileID[:2]}/{fileID}", for
    every backup directory. *)
Definition resolved_path_is_template : Prop :=
  forall w backup_dir ios_path f,
    outcome (find_ios_backup_file w backup_dir ios_path) = Ok (Some f) ->
    exists file_id, f = template_path backup_dir file_id.

(** "resolveBundle returns every matching entry as the pair
    ({backupDir}/{fileID[:2]}/{fileID}, relativePath)", for every backup
    directory. *)
Definition bundle_paths_are_templates : Prop :=
  forall w backup_dir bundle_identifier l,
    outcome (get_app_folders_from_backup w backup_dir bundle_identifier) = Ok (Some l) ->
    forall pr, In pr l -> exists file_id, fst pr = template_path backup_dir file_id.

(** "resolvePath returns null, not an error, when the manifest query
    fails", whatever the failure. *)
Definition query_failure_is_null : Prop :=
  forall w backup_dir ios_path e,
    os_path_exists w (manifest_db w backup_dir) = true ->
    connect (sqlite_at w (manifest_db w backup_dir)) = Ok tt ->
    execute (sqlite_at w (manifest_db w backup_dir)) (SelectByPath ios_path ios_path)
    = Raise e ->
    outcome (find_ios_backup_file w backup_dir ios_path) = Ok None.

(** A numeral of [n] digits, all of them 1. *)
Fixpoint ones (n : nat) : string :=
  match n with
  | O => EmptyString
  | S n' => String "1" (ones n')
  end.

(** "Every version text with a numeric first component parses to that
    component", whatever its length. *)
Definition every_numeral_parses : Prop :=
  forall x dx,
    NilZero.uint_of_string x = Some dx ->
    init (VStr x) = Ok (Attrs (mkVersion (Z.of_uint dx) 0 0)).

(** Further notions, for the properties beyond C1 to C10. *)

(** An int that [int] can read and [str] can print under the default digit
    cap: fewer than [MAX_STR_DIGITS] + 1 decimal digits. *)
Definition within_cap (z : Z) : Prop := Z.abs z < 10 ^ Z.of_nat MAX_STR_DIGITS.

(** Text without a dot: [split] leaves it in one piece. *)
Fixpoint has_dot (s : string) : bool :=
  match s with
  | EmptyString => false
  | String c s' => Ascii.eqb c "." || has_dot s'
  end.

(** The kinds of event a trace is searched for. *)
Definition is_print (e : event) : bool :=
  match e with
  | Print _ => true
  | _ => false
  end.

Definition is_connect (e : event) : bool :=
  match e with
  | Connect _ => true
  | _ => false
  end.

Definition is_close (e : event) : bool :=
  match e with
  | Close => true
  | _ => false
  end.

(** What a run wrote with [print], line by line. *)
Definition printed {A} (m : M A) : list event := filter is_print (trace m).

(** A value that is not text. *)
Definition not_text (v : value) : Prop := forall s, v <> VStr s.

(** The table of [demo_rows] with one more row in front, whose identifier is
    an absolute path. *)
Definition hostile_rows : list entry :=
  mkEntry "/etc/passwd" "HomeDomain" "Library/Preferences/x.plist" :: demo_rows.

End Spec.
Import Spec.

(* ================================================================== *)
(** * Properties *)

(** ** The runtime model on small inputs *)

Example split_dot_ex1 : split_dot "12.1.2" = ["12"; "1"; "2"].
Proof. reflexivity. Qed.
Example split_dot_ex2 : split_dot "11." = ["11"; ""].
Proof. reflexivity. Qed.
Example int_of_str_ex1 : int_of_str " 0_12 " = Ok 12.
Proof. reflexivity. Qed.
Example int_of_str_ex2 : int_of_str "1__2" = Raise ValueError.
Proof. reflexivity. Qed.
Example int_of_str_ex3 : int_of_str "-7" = Ok (-7).
Proof. reflexivity. Qed.
Example int_of_str_ex4 : int_of_str "" = Raise ValueError.
Proof. reflexivity. Qed.
Example int_of_str_ex5 : int_of_str "1_" = Raise ValueError.
Proof. reflexivity. Qed.
Example int_of_str_ex6 : int_of_str "+5" = Ok 5 /\ int_of_str "- 1" = Raise ValueError.
Proof. split; reflexivity. Qed.
Example int_of_str_ex7 : int_of_str "_1" = Raise ValueError /\ int_of_str "1 2" = Raise ValueError.
Proof. split; reflexivity. Qed.
Example init_ex1 : init (VStr "11.0") = Ok (Attrs (mkVersion 11 0 0)).
Proof. reflexivity. Qed.
Example init_ex2 : init (VStr "1.2.3.beta") = Ok (Attrs (mkVersion 1 2 3)).
Proof. reflexivity. Qed.
Example init_ex3 : init (VStr "11.x") = Raise ValueError /\ init VNone = Ok NoAttrs.
Proof. split; reflexivity. Qed.
Example le_ex : __le__ TARGET_BACKUP_MIN_VER NoAttrs = Raise AttributeError.
Proof. reflexivity. Qed.
Example str_of_int_ex :
  str_of_int 11 = "11" /\ str_of_int 0 = "0" /\ str_of_int (-3) = "-3".
Proof. repeat split. Qed.
Example os_path_join_ex1 : os_path_join "." ["ab"; "abcd"] = "./ab/abcd".
Proof. reflexivity. Qed.
Example os_path_join_ex2 : os_path_join "/b/" ["ab"; "abcd"] = "/b/ab/abcd".
Proof. reflexivity. Qed.
Example os_path_join_ex3 : os_path_join "" ["Manifest.db"] = "Manifest.db".
Proof. reflexivity. Qed.
Example os_path_join_ex4 : os_path_join "/b" ["/e"; "/etc"] = "/etc".
Proof. reflexivity. Qed.
Example min_version : TARGET_BACKUP_MIN_VER = Attrs (mkVersion 11 0 0).
Proof. reflexivity. Qed.

(** ** Decimal text

    The reference for "a numeric component" is the standard library's own
    reading of decimal numerals: [NilZero.uint_of_string x = Some d] says that
    [x] is a non-empty run of the digits [d], and [Z.of_uint d] is its value. *)

Section DecimalText.

Ltac by_digit d IH :=
  induction d as [ | d IH | d IH | d IH | d IH | d IH | d IH | d IH | d IH | d IH | d IH ].

Lemma numeral_text x d :
  NilZero.uint_of_string x = Some d -> x = numeral d /\ d <> Nil.
Proof.
  intros H.
  assert (Hd : d <> Nil).
  { intros ->. now apply NilZero.uint_of_string_nonnil in H. }
  split; [ | exact Hd ].
  apply NilZero.sus in H. rewrite <- H. unfold numeral.
  destruct d; [ contradiction | reflexivity .. ].
Qed.

Lemma last_char_numeral d :
  forall prev, not_underscore prev -> not_underscore (last_char (numeral d) prev).
Proof.
  by_digit d IH; intros prev Hp; simpl; auto; apply IH; reflexivity.
Qed.

Lemma last_char_some d :
  forall prev, d <> Nil -> last_char (numeral d) prev <> None.
Proof.
  assert (G : forall d c, last_char (numeral d) (Some c) <> None).
  { clear d. intros d. by_digit d IH; intros c; simpl; auto; discriminate. }
  destruct d; intros prev Hd; try contradiction; simpl; apply G.
Qed.

Lemma scan_digits_step c s prev acc n k :
  Ascii.eqb c "_" = false ->
  digit_value c = Some k ->
  scan_digits (String c s) prev acc n = scan_digits s (Some c) (10 * acc + k) (S n).
Proof. intros Hu Hk. simpl. now rewrite Hu, Hk. Qed.

(** One turn of the digit loop on the numeral in the goal. *)
Ltac scan_step :=
  unfold numeral; simpl NilEmpty.string_of_uint;
  match goal with
  | |- context [scan_digits (String ?c _) _ _ _] =>
      let v := eval vm_compute in (digit_value c) in
      match v with
      | Some ?k => rewrite (scan_digits_step c _ _ _ _ k eq_refl eq_refl)
      end
  end;
  fold numeral.

Lemma scan_digits_pos d :
  forall prev p n,
    scan_digits (numeral d) prev (Z.pos p) n
    = Some (Z.pos (Pos.of_uint_acc d p), (nb_digits d + n)%nat,
            last_char (numeral d) prev, "").
Proof.
  by_digit d IH; intros prev p n; [ reflexivity | scan_step .. ];
    match goal with
    | |- scan_digits _ _ (10 * Z.pos p + 0) _ = _ =>
        replace (10 * Z.pos p + 0) with (Z.pos (10 * p)) by lia
    | |- scan_digits _ _ (10 * Z.pos p + Z.pos ?k) _ = _ =>
        replace (10 * Z.pos p + Z.pos k) with (Z.pos (k + 10 * p)) by lia
    end;
    rewrite IH, Nat.add_succ_r; reflexivity.
Qed.

Lemma scan_digits_zero d :
  forall prev n,
    scan_digits (numeral d) prev 0 n
    = Some (Z.of_uint d, (nb_digits d + n)%nat, last_char (numeral d) prev, "").
Proof.
  by_digit d IH; intros prev n; [ reflexivity | scan_step .. ];
    match goal with
    | |- scan_digits _ _ ?a _ = _ =>
        let v := eval vm_compute in a in change a with v
    end;
    [ rewrite IH, Nat.add_succ_r; reflexivity
    | rewrite scan_digits_pos, Nat.add_succ_r; reflexivity .. ].
Qed.

(** How a numeral begins: with a character that is neither an underscore, a
    blank nor a sign. *)
Lemma numeral_head d :
  d <> Nil ->
  exists c s,
    numeral d = String c s /\ Ascii.eqb c "_" = false /\ is_space c = false /\
    Ascii.eqb c "+" = false /\ Ascii.eqb c "-" = false.
Proof.
  intros Hd. destruct d; [ contradiction | .. ];
    eexists; eexists; repeat split.
Qed.

Lemma length_numeral d : String.length (numeral d) = nb_digits d.
Proof. unfold numeral. induction d; simpl; auto. Qed.

Lemma split_dot_nonempty s : split_dot s <> [].
Proof.
  destruct s as [ | c s ]; simpl; [ discriminate | ].
  destruct (Ascii.eqb c "."); [ discriminate | ].
  destruct (split_dot s); discriminate.
Qed.

Lemma split_dot_numeral d r :
  split_dot (numeral d ++ r)
  = (numeral d ++ hd "" (split_dot r)) :: tl (split_dot r).
Proof.
  unfold numeral.
  by_digit d IH; simpl; [ | rewrite IH; reflexivity .. ].
  pose proof (split_dot_nonempty r). now destruct (split_dot r).
Qed.

Lemma append_empty (s : string) : s ++ "" = s.
Proof. induction s; simpl; congruence. Qed.

Lemma split_dot_one d : split_dot (numeral d) = [numeral d].
Proof.
  rewrite <- (append_empty (numeral d)) at 1.
  rewrite split_dot_numeral. simpl. now rewrite append_empty.
Qed.

Lemma split_dot_more d r :
  split_dot (numeral d ++ "." ++ r) = numeral d :: split_dot r.
Proof. rewrite split_dot_numeral. simpl. now rewrite append_empty. Qed.

Lemma int_unsigned_numeral d :
  d <> Nil -> (nb_digits d <= MAX_STR_DIGITS)%nat ->
  int_unsigned (numeral d) = Ok (Z.of_uint d).
Proof.
  intros Hd Hn.
  destruct (numeral_head d Hd) as (c & s & E & Hc & _).
  pose proof (scan_digits_zero d None 0) as Hs.
  pose proof (last_char_numeral d None I) as Hu.
  pose proof (last_char_some d None Hd) as Hl.
  destruct (last_char (numeral d) None) as [q | ]; [ | contradiction ].
  simpl in Hu. rewrite Nat.add_0_r in Hs. apply Nat.ltb_ge in Hn.
  unfold int_unsigned. rewrite E in *. rewrite Hc, Hs, Hu, Hn. reflexivity.
Qed.

Lemma int_of_str_numeral d :
  d <> Nil -> (nb_digits d <= MAX_STR_DIGITS)%nat ->
  int_of_str (numeral d) = Ok (Z.of_uint d).
Proof.
  intros Hd Hn. pose proof (int_unsigned_numeral d Hd Hn) as H.
  destruct (numeral_head d Hd) as (c & s & E & _ & Hs & Hp & Hm).
  unfold int_of_str. rewrite E in *. simpl skip_spaces. rewrite Hs, Hp, Hm.
  exact H.
Qed.

End DecimalText.

(** ** Versions *)

Section VersionParsing.

Lemma init_text s :
  init (VStr s)
  = rbind (int_of_str (hd "" (split_dot s))) (fun ma =>
    rbind (part_or_zero (split_dot s) 1) (fun mi =>
    rbind (part_or_zero (split_dot s) 2) (fun bf =>
    Ok (Attrs (mkVersion ma mi bf))))).
Proof. reflexivity. Qed.

Lemma init_one dx :
  dx <> Nil -> (nb_digits dx <= MAX_STR_DIGITS)%nat ->
  init (VStr (numeral dx)) = Ok (Attrs (mkVersion (Z.of_uint dx) 0 0)).
Proof.
  intros Hx Lx. rewrite init_text, split_dot_one. simpl hd.
  rewrite (int_of_str_numeral dx Hx Lx). reflexivity.
Qed.

Lemma init_two dx dy :
  dx <> Nil -> dy <> Nil ->
  (nb_digits dx <= MAX_STR_DIGITS)%nat -> (nb_digits dy <= MAX_STR_DIGITS)%nat ->
  init (VStr (numeral dx ++ "." ++ numeral dy))
  = Ok (Attrs (mkVersion (Z.of_uint dx) (Z.of_uint dy) 0)).
Proof.
  intros Hx Hy Lx Ly. rewrite init_text, split_dot_more, split_dot_one.
  simpl hd. unfold part_or_zero. simpl nth_error.
  rewrite (int_of_str_numeral dx Hx Lx), (int_of_str_numeral dy Hy Ly). reflexivity.
Qed.

Lemma init_three dx dy dz :
  dx <> Nil -> dy <> Nil -> dz <> Nil ->
  (nb_digits dx <= MAX_STR_DIGITS)%nat -> (nb_digits dy <= MAX_STR_DIGITS)%nat ->
  (nb_digits dz <= MAX_STR_DIGITS)%nat ->
  init (VStr (numeral dx ++ "." ++ numeral dy ++ "." ++ numeral dz))
  = Ok (Attrs (mkVersion (Z.of_uint dx) (Z.of_uint dy) (Z.of_uint dz))).
Proof.
  intros Hx Hy Hz Lx Ly Lz.
  rewrite init_text, split_dot_more, split_dot_more, split_dot_one.
  simpl hd. unfold part_or_zero. simpl nth_error.
  rewrite (int_of_str_numeral dx Hx Lx), (int_of_str_numeral dy Hy Ly),
    (int_of_str_numeral dz Hz Lz).
  reflexivity.
Qed.

(** C7 (amended).  For version text of the forms "X", "X.Y" and "X.Y.Z" whose
    components are decimal numerals of at most 4300 digits each, the
    constructor yields the triple of their values, a missing minor or bugfix
    component being 0. *)
Theorem version_parse_defaults (x y z : string) (dx dy dz : uint) :
  NilZero.uint_of_string x = Some dx ->
  NilZero.uint_of_string y = Some dy ->
  NilZero.uint_of_string z = Some dz ->
  (String.length x <= MAX_STR_DIGITS)%nat ->
  (String.length y <= MAX_STR_DIGITS)%nat ->
  (String.length z <= MAX_STR_DIGITS)%nat ->
  init (VStr x) = Ok (Attrs (mkVersion (Z.of_uint dx) 0 0)) /\
  init (VStr (x ++ "." ++ y))
    = Ok (Attrs (mkVersion (Z.of_uint dx) (Z.of_uint dy) 0)) /\
  init (VStr (x ++ "." ++ y ++ "." ++ z))
    = Ok (Attrs (mkVersion (Z.of_uint dx) (Z.of_uint dy) (Z.of_uint dz))).
Proof.
  intros Hx Hy Hz Lx Ly Lz.
  destruct (numeral_text x dx Hx) as [-> Nx].
  destruct (numeral_text y dy Hy) as [-> Ny].
  destruct (numeral_text z dz Hz) as [-> Nz].
  rewrite length_numeral in Lx, Ly, Lz.
  repeat split.
  - now apply init_one.
  - now apply init_two.
  - now apply init_three.
Qed.

Lemma version_parse_defaults_witness :
  init (VStr "12") = Ok (Attrs (mkVersion 12 0 0)) /\
  init (VStr "12.1") = Ok (Attrs (mkVersion 12 1 0)) /\
  init (VStr "12.1.2") = Ok (Attrs (mkVersion 12 1 2)).
Proof.
  apply (version_parse_defaults "12" "1" "2" (D1 (D2 Nil)) (D1 Nil) (D2 Nil));
    try reflexivity; apply Nat.leb_le; reflexivity.
Defined.

(** C7, counterexample.  A numeral of 4301 digits is beyond the interpreter's
    cap: the constructor raises [ValueError] on it. *)
Lemma every_numeral_parses_counterexample :
  String.length (ones 4301) = 4301%nat /\
  init (VStr (ones 4301)) = Raise ValueError /\
  ~ every_numeral_parses.
Proof.
  assert (E : init (VStr (ones 4301)) = Raise ValueError) by (vm_compute; reflexivity).
  split; [ vm_compute; reflexivity | ]. split; [ exact E | ].
  intros C.
  destruct (NilZero.uint_of_string (ones 4301)) as [d | ] eqn:U.
  - rewrite (C _ d U) in E. discriminate E.
  - vm_compute in U. discriminate U.
Qed.

End VersionParsing.

Section VersionOrder.

Lemma eqb_spec_version a b : eqb a b = true <-> a = b.
Proof.
  destruct a as [a1 a2 a3], b as [b1 b2 b3]. unfold eqb; simpl.
  rewrite !andb_true_iff, !Z.eqb_eq. split.
  - intros (-> & -> & -> & _). reflexivity.
  - intros [= -> -> ->]. auto.
Qed.

Lemma ltb_lex a b : ltb a b = true <-> lex_lt a b.
Proof.
  destruct a as [a1 a2 a3], b as [b1 b2 b3]. unfold ltb, lex_lt; simpl.
  destruct (Z.eqb_spec a1 b1); [ destruct (Z.eqb_spec a2 b2);
    [ destruct (Z.eqb_spec a3 b3) | ] | ];
    rewrite ?Z.ltb_lt; split; try lia; try discriminate.
Qed.

Lemma gtb_lex a b : gtb a b = true <-> lex_lt b a.
Proof.
  destruct a as [a1 a2 a3], b as [b1 b2 b3]. unfold gtb, lex_lt; simpl.
  destruct (Z.eqb_spec a1 b1); [ destruct (Z.eqb_spec a2 b2);
    [ destruct (Z.eqb_spec a3 b3) | ] | ];
    rewrite ?Z.gtb_ltb, ?Z.ltb_lt; split; try lia; try discriminate.
Qed.

Lemma leb_lex a b : leb a b = true <-> lex_le a b.
Proof.
  unfold leb, lex_le. rewrite orb_true_iff, ltb_lex, eqb_spec_version. tauto.
Qed.

Lemma geb_lex a b : geb a b = true <-> lex_le b a.
Proof.
  unfold geb, lex_le. rewrite orb_true_iff, gtb_lex, eqb_spec_version.
  split; intros [H | H]; auto.
Qed.

Lemma lex_le_triple a b :
  lex_le a b <->
  major a < major b \/
  (major a = major b /\
   (minor a < minor b \/ (minor a = minor b /\ bugfix a <= bugfix b))).
Proof.
  destruct a as [a1 a2 a3], b as [b1 b2 b3]. unfold lex_le, lex_lt; simpl.
  split.
  - intros [H | [= -> -> ->]]; lia.
  - intros H.
    destruct (Z.eq_dec a1 b1) as [-> | ]; [ | left; lia ].
    destruct (Z.eq_dec a2 b2) as [-> | ]; [ | left; lia ].
    destruct (Z.eq_dec a3 b3) as [-> | ]; [ right; reflexivity | left; lia ].
Qed.

Lemma methods_on_attrs a b :
  __eq__ (Attrs a) (Attrs b) = Ok (eqb a b) /\
  __lt__ (Attrs a) (Attrs b) = Ok (ltb a b) /\
  __le__ (Attrs a) (Attrs b) = Ok (leb a b) /\
  __gt__ (Attrs a) (Attrs b) = Ok (gtb a b) /\
  __ge__ (Attrs a) (Attrs b) = Ok (geb a b).
Proof.
  unfold __le__, __ge__, __eq__, __lt__, __gt__, leb, geb; simpl.
  repeat split.
  - now destruct (ltb a b).
  - now destruct (gtb a b).
Qed.

(** C8.  The comparison methods of [iOSVersion] agree with the lexicographic
    order on (major, minor, bugfix); [<=] is reflexive, transitive,
    antisymmetric and total, [<] is its strict part, [>] and [>=] are the
    converses, [==] is equality of the triples; and 11.0.0 <= 11.0.0,
    10.3.0 <= 11.0.0 hold while 12.0.0 <= 11.0.0 does not. *)
Theorem version_order_total_lexicographic :
  (forall a b,
      __eq__ (Attrs a) (Attrs b) = Ok (eqb a b) /\
      __lt__ (Attrs a) (Attrs b) = Ok (ltb a b) /\
      __le__ (Attrs a) (Attrs b) = Ok (leb a b) /\
      __gt__ (Attrs a) (Attrs b) = Ok (gtb a b) /\
      __ge__ (Attrs a) (Attrs b) = Ok (geb a b)) /\
  (forall a b, eqb a b = true <-> a = b) /\
  (forall a b, ltb a b = true <-> lex_lt a b) /\
  (forall a b, leb a b = true <-> lex_le a b) /\
  (forall a b, gtb a b = true <-> lex_lt b a) /\
  (forall a b, geb a b = true <-> lex_le b a) /\
  (forall a, leb a a = true) /\
  (forall a b c, leb a b = true -> leb b c = true -> leb a c = true) /\
  (forall a b, leb a b = true -> leb b a = true -> a = b) /\
  (forall a b, leb a b = true \/ leb b a = true) /\
  (forall a b, ltb a b = true <-> leb a b = true /\ eqb a b = false) /\
  __le__ (Attrs (mkVersion 11 0 0)) (Attrs (mkVersion 11 0 0)) = Ok true /\
  __le__ (Attrs (mkVersion 10 3 0)) (Attrs (mkVersion 11 0 0)) = Ok true /\
  __le__ (Attrs (mkVersion 12 0 0)) (Attrs (mkVersion 11 0 0)) = Ok false.
Proof.
  split; [ exact methods_on_attrs | ].
  split; [ exact eqb_spec_version | ].
  split; [ exact ltb_lex | ].
  split; [ exact leb_lex | ].
  split; [ exact gtb_lex | ].
  split; [ exact geb_lex | ].
  split; [ intros a; apply leb_lex; right; reflexivity | ].
  split.
  { intros a b c. rewrite !leb_lex, !lex_le_triple. lia. }
  split.
  { intros a b. rewrite !leb_lex, !lex_le_triple.
    destruct a as [a1 a2 a3], b as [b1 b2 b3]; simpl.
    intros H1 H2. f_equal; lia. }
  split.
  { intros a b. rewrite !leb_lex, !lex_le_triple. lia. }
  split.
  { intros a b.
    rewrite ltb_lex, leb_lex, <- not_true_iff_false, eqb_spec_version.
    unfold lex_le. split.
    - intros H. split; [ left; exact H | ].
      intros ->. unfold lex_lt in H. lia.
    - intros [[H | H] N]; [ exact H | contradiction ]. }
  repeat split.
Qed.

End VersionOrder.

(** ** The version gate *)

Section VersionGate.

Variable w : world.
Variable backup_dir : string.

Let gate_prefix : list event :=
  [Call "is_backup_compatible" [backup_dir]; Exists (info_plist w backup_dir)].

Lemma gate_absent :
  os_path_exists w (info_plist w backup_dir) = false ->
  is_backup_compatible w backup_dir
  = ((gate_prefix ++ [Print ("[!] Info.plist: not found in " ++ backup_dir)])%list,
     Ok (false, None)).
Proof.
  intros H. unfold is_backup_compatible. fold (info_plist w backup_dir).
  rewrite H. reflexivity.
Qed.

Lemma gate_not_loaded e :
  os_path_exists w (info_plist w backup_dir) = true ->
  plist_at w (info_plist w backup_dir) = Unreadable e \/
  plist_at w (info_plist w backup_dir) = Malformed e ->
  is_backup_compatible w backup_dir
  = ((gate_prefix ++ [ReadFile (info_plist w backup_dir);
                      Print ("[!] Info.plist: " ++ e)])%list,
     Ok (false, None)).
Proof.
  intros H [P | P]; unfold is_backup_compatible; fold (info_plist w backup_dir);
    rewrite H, P; reflexivity.
Qed.

(** Once the plist is loaded nothing is printed or caught any more: the
    result is whatever the three remaining expressions evaluate to. *)
Lemma gate_loaded info :
  os_path_exists w (info_plist w backup_dir) = true ->
  plist_at w (info_plist w backup_dir) = Loaded info ->
  is_backup_compatible w backup_dir
  = ((gate_prefix ++ [ReadFile (info_plist w backup_dir)])%list,
     rbind (dict_get info TARGET_BACKUP_INFO_KEY) (fun key =>
     rbind (init key) (fun target_version =>
     rbind (__le__ TARGET_BACKUP_MIN_VER target_version) (fun ok =>
     Ok (ok, Some target_version))))).
Proof.
  intros H P. unfold is_backup_compatible. fold (info_plist w backup_dir).
  rewrite H, P. simpl negb. cbv iota.
  destruct (dict_get info TARGET_BACKUP_INFO_KEY) as [key | ]; [ | reflexivity ].
  cbv beta iota delta [bind lift emit ret rbind].
  destruct (init key) as [t | ]; [ | reflexivity ].
  destruct (__le__ TARGET_BACKUP_MIN_VER t); reflexivity.
Qed.

(** Whatever the gate returns as a version carries its attributes. *)
Lemma gate_version_has_attrs b t :
  outcome (is_backup_compatible w backup_dir) = Ok (b, Some t) ->
  exists v, t = Attrs v.
Proof.
  destruct (os_path_exists w (info_plist w backup_dir)) eqn:H.
  - destruct (plist_at w (info_plist w backup_dir)) as [e | e | info] eqn:P.
    + rewrite (gate_not_loaded e H (or_introl P)). discriminate.
    + rewrite (gate_not_loaded e H (or_intror P)). discriminate.
    + rewrite (gate_loaded info H P). unfold outcome; cbn [snd].
      destruct (dict_get info TARGET_BACKUP_INFO_KEY) as [key | ]; [ | discriminate ].
      simpl rbind.
      destruct (init key) as [t' | ]; [ | discriminate ].
      simpl rbind.
      destruct t' as [ | v ]; [ discriminate | ].
      destruct (__le__ TARGET_BACKUP_MIN_VER (Attrs v)); [ | discriminate ].
      simpl. intros [= _ <-]. now exists v.
  - rewrite (gate_absent H). discriminate.
Qed.

(** The gate never talks to SQLite and never enters a resolver. *)
Lemma gate_trace_quiet :
  filter is_resolver_call (trace (is_backup_compatible w backup_dir)) = [] /\
  filter is_execute (trace (is_backup_compatible w backup_dir)) = [].
Proof.
  destruct (os_path_exists w (info_plist w backup_dir)) eqn:H.
  - destruct (plist_at w (info_plist w backup_dir)) as [e | e | info] eqn:P.
    + rewrite (gate_not_loaded e H (or_introl P)). split; reflexivity.
    + rewrite (gate_not_loaded e H (or_intror P)). split; reflexivity.
    + rewrite (gate_loaded info H P). split; reflexivity.
  - rewrite (gate_absent H). split; reflexivity.
Qed.

Lemma gate_reports s :
  reports w backup_dir s ->
  outcome (is_backup_compatible w backup_dir)
  = rbind (init (VStr s)) (fun target_version =>
    rbind (__le__ TARGET_BACKUP_MIN_VER target_version) (fun ok =>
    Ok (ok, Some target_version))).
Proof.
  intros (d & (H & P) & K). rewrite (gate_loaded (VDict d) H P).
  unfold outcome; cbn [snd]. rewrite K. reflexivity.
Qed.

End VersionGate.

(** The three soft failures of the gate: no [Info.plist], one that cannot be
    read, one that is not a property list.  Each gives [(False, None)] and its
    own message. *)
Lemma gate_soft_failures (w : world) (backup_dir e : string) :
  (os_path_exists w (info_plist w backup_dir) = false ->
   outcome (is_backup_compatible w backup_dir) = Ok (false, None)) /\
  (os_path_exists w (info_plist w backup_dir) = true ->
   plist_at w (info_plist w backup_dir) = Unreadable e ->
   outcome (is_backup_compatible w backup_dir) = Ok (false, None)) /\
  (os_path_exists w (info_plist w backup_dir) = true ->
   plist_at w (info_plist w backup_dir) = Malformed e ->
   outcome (is_backup_compatible w backup_dir) = Ok (false, None)).
Proof.
  repeat split.
  - intros H. now rewrite (gate_absent w backup_dir H).
  - intros H P. now rewrite (gate_not_loaded w backup_dir e H (or_introl P)).
  - intros H P. now rewrite (gate_not_loaded w backup_dir e H (or_intror P)).
Qed.

(** C6.  On a backup whose [Info.plist] reports a version text that parses to
    [v], the gate returns [(11.0.0 <= v, v)], [<=] being the lexicographic
    order on the triple; "10.0" gives [(False, 10.0.0)] and "12.1.2" gives
    [(True, 12.1.2)]. *)
Theorem compatibility_is_minimum_le_version :
  TARGET_BACKUP_MIN_VER = Attrs (mkVersion 11 0 0) /\
  (forall w backup_dir s v,
      reports w backup_dir s ->
      init (VStr s) = Ok (Attrs v) ->
      outcome (is_backup_compatible w backup_dir)
      = Ok (leb (mkVersion 11 0 0) v, Some (Attrs v)) /\
      (leb (mkVersion 11 0 0) v = true <-> lex_le (mkVersion 11 0 0) v)) /\
  (forall w backup_dir,
      reports w backup_dir "10.0" ->
      outcome (is_backup_compatible w backup_dir)
      = Ok (false, Some (Attrs (mkVersion 10 0 0)))) /\
  (forall w backup_dir,
      reports w backup_dir "12.1.2" ->
      outcome (is_backup_compatible w backup_dir)
      = Ok (true, Some (Attrs (mkVersion 12 1 2)))).
Proof.
  split; [ reflexivity | ].
  split; [ | split ].
  - intros w backup_dir s v R I. split; [ | apply leb_lex ].
    rewrite (gate_reports w backup_dir s R), I. simpl rbind.
    change TARGET_BACKUP_MIN_VER with (Attrs (mkVersion 11 0 0)).
    destruct (methods_on_attrs (mkVersion 11 0 0) v) as (_ & _ & -> & _).
    reflexivity.
  - intros w backup_dir R. now rewrite (gate_reports w backup_dir _ R).
  - intros w backup_dir R. now rewrite (gate_reports w backup_dir _ R).
Qed.

Lemma demo_reports version present :
  reports (demo_world (demo_info version) (Files demo_rows)
             ("/work/bk/Info.plist" :: present)) "bk" version.
Proof.
  exists [("Device Name", VStr "phone"); ("Product Version", VStr version)].
  repeat split.
Qed.

Lemma compatibility_is_minimum_le_version_witness :
  outcome (is_backup_compatible
             (demo_world (demo_info "10.0") (Files demo_rows) ["/work/bk/Info.plist"]) "bk")
  = Ok (false, Some (Attrs (mkVersion 10 0 0))) /\
  outcome (is_backup_compatible
             (demo_world (demo_info "12.1.2") (Files demo_rows) ["/work/bk/Info.plist"]) "bk")
  = Ok (true, Some (Attrs (mkVersion 12 1 2))) /\
  outcome (is_backup_compatible
             (demo_world (demo_info "11") (Files demo_rows) ["/work/bk/Info.plist"]) "bk")
  = Ok (true, Some (Attrs (mkVersion 11 0 0))).
Proof.
  destruct compatibility_is_minimum_le_version as (_ & G & L & H).
  split; [ | split ].
  - exact (L _ _ (demo_reports "10.0" [])).
  - exact (H _ _ (demo_reports "12.1.2" [])).
  - exact (proj1 (G _ _ "11" (mkVersion 11 0 0) (demo_reports "11" []) eq_refl)).
Defined.

Lemma dict_get_absent (d : list (string * value)) (key : string) :
  (forall v, ~ In (key, v) d) -> dict_get (VDict d) key = Ok VNone.
Proof.
  intros H. unfold dict_get.
  destruct (find (fun kv => String.eqb (fst kv) key) d) as [[k v] | ] eqn:F;
    [ | reflexivity ].
  apply find_some in F. destruct F as [F1 F2]. simpl in F2.
  apply String.eqb_eq in F2. subst k. now apply H in F1.
Qed.

(** Past the [try] nothing is guarded: a dict without the key ... *)
Lemma gate_missing_key (w : world) (backup_dir : string) (d : list (string * value)) :
  info_loads w backup_dir d ->
  (forall v, ~ In (TARGET_BACKUP_INFO_KEY, v) d) ->
  outcome (is_backup_compatible w backup_dir) = Raise AttributeError.
Proof.
  intros [H P] A. rewrite (gate_loaded w backup_dir (VDict d) H P).
  unfold outcome; cbn [snd]. rewrite (dict_get_absent d _ A). reflexivity.
Qed.

(** ... and version text that the constructor rejects. *)
Lemma gate_rejected_text (w : world) (backup_dir s : string) (e : exn) :
  reports w backup_dir s ->
  init (VStr s) = Raise e ->
  outcome (is_backup_compatible w backup_dir) = Raise e.
Proof.
  intros R I. rewrite (gate_reports w backup_dir s R), I. reflexivity.
Qed.

(** C3.  The gate does not soft-fail on a plist that loads but has no usable
    version: without the key "Product Version" the constructor leaves the
    instance without attributes and the comparison raises [AttributeError];
    with text that [int] rejects the constructor raises [ValueError].  Neither
    is caught, so [(False, None)] is not returned. *)
Theorem gate_raises_without_numeric_version (w : world) (backup_dir : string) :
  (forall d,
      info_loads w backup_dir d ->
      (forall v, ~ In (TARGET_BACKUP_INFO_KEY, v) d) ->
      outcome (is_backup_compatible w backup_dir) = Raise AttributeError) /\
  (forall s,
      reports w backup_dir s ->
      init (VStr s) = Raise ValueError ->
      outcome (is_backup_compatible w backup_dir) = Raise ValueError).
Proof.
  split.
  - apply gate_missing_key.
  - intros s. apply gate_rejected_text.
Qed.

Lemma gate_raises_without_numeric_version_witness :
  outcome (is_backup_compatible
             (demo_world (Loaded (VDict [("Device Name", VStr "phone")]))
                (Files demo_rows) ["/work/bk/Info.plist"]) "bk")
  = Raise AttributeError /\
  outcome (is_backup_compatible
             (demo_world (demo_info "abc") (Files demo_rows) ["/work/bk/Info.plist"]) "bk")
  = Raise ValueError.
Proof.
  split.
  - apply (proj1 (gate_raises_without_numeric_version _ "bk")
             [("Device Name", VStr "phone")]).
    + split; reflexivity.
    + intros v [E | []]. discriminate E.
  - apply (proj2 (gate_raises_without_numeric_version _ "bk") "abc").
    + apply demo_reports.
    + reflexivity.
Defined.

(** ** Paths *)

Section Paths.

Lemma append_assoc_str (a b c : string) : (a ++ b) ++ c = a ++ (b ++ c).
Proof. induction a as [ | x a IH ]; simpl; [ reflexivity | now rewrite IH ]. Qed.

Lemma endswith_sep_append (a b : string) :
  is_empty b = false -> endswith_sep (a ++ b) = endswith_sep b.
Proof.
  intros Hb. induction a as [ | x a IH ]; simpl; [ reflexivity | ].
  rewrite <- IH. destruct (a ++ b) eqn:E; [ | reflexivity ].
  destruct a; simpl in E; [ subst b; discriminate | discriminate ].
Qed.

Lemma is_empty_append (a b : string) :
  is_empty a = false -> is_empty (a ++ b) = false.
Proof. destruct a; simpl; [ discriminate | reflexivity ]. Qed.

Lemma has_sep_endswith (s : string) : has_sep s = false -> endswith_sep s = false.
Proof.
  induction s as [ | c s IH ]; simpl; [ reflexivity | ].
  intros H. apply orb_false_iff in H. destruct H as [Hc Hs].
  destruct s; [ exact Hc | now apply IH ].
Qed.

Lemma has_sep_startswith (s : string) : has_sep s = false -> startswith_sep s = false.
Proof.
  destruct s as [ | c s ]; simpl; [ reflexivity | ].
  intros H. now apply orb_false_iff in H.
Qed.

Lemma has_sep_slice (n : nat) (s : string) :
  has_sep s = false -> has_sep (slice_to n s) = false.
Proof.
  revert s. induction n as [ | n IH ]; intros [ | c s ]; simpl; auto.
  intros H. apply orb_false_iff in H. destruct H as [Hc Hs].
  now rewrite Hc, IH.
Qed.

Lemma is_empty_slice (n : nat) (s : string) :
  is_empty s = false -> is_empty (slice_to (S n) s) = false.
Proof. destruct s; simpl; [ discriminate | reflexivity ]. Qed.

(** On plain inputs [os.path.join] writes the resolved file out as
    backupDir "/" fileID[:2] "/" fileID. *)
Lemma backup_file_template (backup_dir file_id : string) :
  plain_dir backup_dir -> plain_id file_id ->
  backup_file backup_dir file_id = template_path backup_dir file_id.
Proof.
  intros [Db De] [Fe Fs].
  pose proof (has_sep_slice 2 file_id Fs) as Ss.
  pose proof (is_empty_slice 1 file_id Fe) as Se.
  unfold backup_file, template_path.
  set (subdir := slice_to 2 file_id) in *.
  change (os_path_join backup_dir [subdir; file_id])
    with (join_step (join_step backup_dir subdir) file_id).
  assert (J : join_step backup_dir subdir = backup_dir ++ "/" ++ subdir).
  { unfold join_step. now rewrite (has_sep_startswith _ Ss), Db, De. }
  rewrite J. unfold join_step.
  rewrite (has_sep_startswith _ Fs), (is_empty_append _ _ Db).
  rewrite endswith_sep_append by reflexivity.
  assert (E : endswith_sep ("/" ++ subdir) = false).
  { rewrite endswith_sep_append by exact Se. now apply has_sep_endswith. }
  rewrite E. simpl orb. cbv iota.
  rewrite !append_assoc_str. reflexivity.
Qed.

End Paths.

Example backup_file_plain :
  backup_file "bk" "3d0d7e5fb2ce288813306e4d4636395e047a3d28"
  = "bk/3d/3d0d7e5fb2ce288813306e4d4636395e047a3d28".
Proof. reflexivity. Qed.
Example backup_file_trailing_sep :
  backup_file "bk/" "3d0d7e5fb2ce288813306e4d4636395e047a3d28"
  = "bk/3d/3d0d7e5fb2ce288813306e4d4636395e047a3d28".
Proof. reflexivity. Qed.
Example backup_file_empty_dir :
  backup_file "" "3d0d7e5fb2ce288813306e4d4636395e047a3d28"
  = "3d/3d0d7e5fb2ce288813306e4d4636395e047a3d28".
Proof. reflexivity. Qed.

(** ** The path resolver *)

Section PathResolver.

Variable w : world.
Variables backup_dir ios_path : string.

Let query : statement := SelectByPath ios_path ios_path.

Let entered : list event :=
  [Call "find_ios_backup_file" [backup_dir; ios_path];
   Exists (manifest_db w backup_dir)].

Let queried : list event :=
  (entered ++ [Connect (manifest_db w backup_dir); Execute query])%list.

Lemma selects_path (e : entry) :
  selects (SelectByPath ios_path ios_path) e = true <-> matches_path ios_path e.
Proof.
  unfold selects, matches_path. rewrite orb_true_iff, !String.eqb_eq. tauto.
Qed.

Lemma selects_path_false (e : entry) :
  selects (SelectByPath ios_path ios_path) e = false <-> ~ matches_path ios_path e.
Proof. rewrite <- selects_path. now destruct (selects _ e). Qed.

Lemma find_absent :
  os_path_exists w (manifest_db w backup_dir) = false ->
  find_ios_backup_file w backup_dir ios_path
  = ((entered ++ [Print ("[!] Manifest.db not found in " ++ backup_dir)])%list,
     Ok None).
Proof.
  intros H. unfold find_ios_backup_file. fold (manifest_db w backup_dir).
  rewrite H. reflexivity.
Qed.

Lemma find_cannot_connect e :
  os_path_exists w (manifest_db w backup_dir) = true ->
  connect (sqlite_at w (manifest_db w backup_dir)) = Raise e ->
  find_ios_backup_file w backup_dir ios_path
  = ((entered ++ [Connect (manifest_db w backup_dir)])%list, Raise e).
Proof.
  intros H C. unfold find_ios_backup_file. fold (manifest_db w backup_dir).
  rewrite H, C. reflexivity.
Qed.

(** The [except sqlite3.OperationalError] clause. *)
Lemma find_operational_error :
  os_path_exists w (manifest_db w backup_dir) = true ->
  connect (sqlite_at w (manifest_db w backup_dir)) = Ok tt ->
  execute (sqlite_at w (manifest_db w backup_dir)) query = Raise OperationalError ->
  find_ios_backup_file w backup_dir ios_path
  = ((queried ++
      [Print "[!] Could not query Manifest.db â€” is it a valid iTunes backup?";
       Close])%list,
     Ok None).
Proof.
  intros H C X. unfold find_ios_backup_file. fold (manifest_db w backup_dir).
  fold query. rewrite H, C, X. reflexivity.
Qed.

(** Any other class of error passes through the [try]. *)
Lemma find_other_error e :
  os_path_exists w (manifest_db w backup_dir) = true ->
  connect (sqlite_at w (manifest_db w backup_dir)) = Ok tt ->
  execute (sqlite_at w (manifest_db w backup_dir)) query = Raise e ->
  e <> OperationalError ->
  find_ios_backup_file w backup_dir ios_path = (queried, Raise e).
Proof.
  intros H C X N. unfold find_ios_backup_file. fold (manifest_db w backup_dir).
  fold query. rewrite H, C, X.
  destruct e; try reflexivity. contradiction.
Qed.

(** With the table in place, the first selected row and the disk decide. *)
Lemma find_on_table rows :
  manifest_holds w backup_dir rows ->
  find_ios_backup_file w backup_dir ios_path
  = match filter (selects query) rows with
    | [] => ((queried ++ [Close])%list, Ok None)
    | row :: _ =>
        let file_path := backup_file backup_dir (fileID row) in
        if os_path_exists w file_path
        then ((queried ++ [Close; Exists file_path])%list, Ok (Some file_path))
        else ((queried ++ [Close; Exists file_path;
                           Print ("[!] Expected file not found at " ++ file_path)])%list,
              Ok None)
    end.
Proof.
  intros [H T]. unfold find_ios_backup_file. fold (manifest_db w backup_dir).
  fold query. rewrite H, T. simpl negb. cbv iota. simpl connect. simpl execute.
  destruct (filter (selects query) rows) as [ | row sel ]; [ reflexivity | ].
  cbv zeta. fold (backup_file backup_dir (fileID row)).
  cbv beta iota delta [bind lift emit ret].
  destruct (os_path_exists w (backup_file backup_dir (fileID row))); reflexivity.
Qed.

Lemma filter_first {A} (f : A -> bool) (before : list A) (x : A) (after : list A) :
  (forall y, In y before -> f y = false) -> f x = true ->
  filter f (before ++ x :: after) = x :: filter f after.
Proof.
  intros Hb Hx. induction before as [ | y before IH ]; simpl.
  - now rewrite Hx.
  - rewrite (Hb y (or_introl eq_refl)). apply IH.
    intros z Hz. apply Hb. now right.
Qed.

Lemma filter_nothing {A} (f : A -> bool) (l : list A) :
  (forall y, In y l -> f y = false) -> filter f l = [].
Proof.
  intros H. induction l as [ | y l IH ]; simpl; [ reflexivity | ].
  rewrite (H y (or_introl eq_refl)). apply IH. intros z Hz. apply H. now right.
Qed.

Lemma find_no_match rows :
  manifest_holds w backup_dir rows ->
  (forall e, In e rows -> ~ matches_path ios_path e) ->
  outcome (find_ios_backup_file w backup_dir ios_path) = Ok None.
Proof.
  intros M N. rewrite (find_on_table rows M), filter_nothing; [ reflexivity | ].
  intros e He. apply selects_path_false. now apply N.
Qed.

Lemma find_first_match rows before e after :
  manifest_holds w backup_dir rows ->
  rows = (before ++ e :: after)%list ->
  (forall e', In e' before -> ~ matches_path ios_path e') ->
  matches_path ios_path e ->
  outcome (find_ios_backup_file w backup_dir ios_path)
  = Ok (if os_path_exists w (backup_file backup_dir (fileID e))
        then Some (backup_file backup_dir (fileID e))
        else None).
Proof.
  intros M -> N Y. rewrite (find_on_table _ M), filter_first.
  - cbv zeta. now destruct (os_path_exists w (backup_file backup_dir (fileID e))).
  - intros e' He'. apply selects_path_false. now apply N.
  - now apply selects_path.
Qed.

Lemma filter_head {A} (f : A -> bool) (l : list A) (x : A) (sel : list A) :
  filter f l = x :: sel ->
  exists before after,
    l = (before ++ x :: after)%list /\
    (forall y, In y before -> f y = false) /\ f x = true.
Proof.
  induction l as [ | y l IH ]; simpl; [ discriminate | ].
  destruct (f y) eqn:Y.
  - intros [= -> <-]. exists [], l. repeat split; [ intros z [] | exact Y ].
  - intros F. destruct (IH F) as (before & after & -> & B & X).
    exists (y :: before), after. repeat split; [ | exact X ].
    intros z [<- | Z]; [ exact Y | now apply B ].
Qed.

Lemma find_success rows f :
  manifest_holds w backup_dir rows ->
  outcome (find_ios_backup_file w backup_dir ios_path) = Ok (Some f) ->
  exists before e after,
    rows = (before ++ e :: after)%list /\
    (forall e', In e' before -> ~ matches_path ios_path e') /\
    matches_path ios_path e /\
    f = os_path_join backup_dir [slice_to 2 (fileID e); fileID e] /\
    os_path_exists w f = true.
Proof.
  intros M. rewrite (find_on_table rows M).
  destruct (filter (selects query) rows) as [ | row sel ] eqn:F; [ discriminate | ].
  cbv zeta.
  destruct (os_path_exists w (backup_file backup_dir (fileID row))) eqn:X;
    [ | discriminate ].
  unfold outcome; cbn [snd]. intros [= <-].
  destruct (filter_head _ _ _ _ F) as (before & after & R & B & S).
  exists before, row, after. split; [ exact R | ]. split.
  { intros e' He'. apply selects_path_false. now apply B. }
  split; [ now apply selects_path | ]. split; [ reflexivity | exact X ].
Qed.

(** Only a manifest that holds the table lets the resolver return a path. *)
Lemma find_some_table f :
  outcome (find_ios_backup_file w backup_dir ios_path) = Ok (Some f) ->
  exists rows, manifest_holds w backup_dir rows.
Proof.
  destruct (os_path_exists w (manifest_db w backup_dir)) eqn:H.
  - destruct (sqlite_at w (manifest_db w backup_dir)) as [ | | | rows ] eqn:T.
    + rewrite (find_cannot_connect OperationalError H); [ discriminate | ].
      now rewrite T.
    + rewrite (find_other_error DatabaseError H); try discriminate; now rewrite T.
    + rewrite (find_operational_error H); try discriminate; now rewrite T.
    + intros _. exists rows. now split.
  - rewrite (find_absent H). discriminate.
Qed.

(** A path is handed back only after [os.path.exists] said yes to it, in
    whatever state the manifest is. *)
Lemma find_some_exists f :
  outcome (find_ios_backup_file w backup_dir ios_path) = Ok (Some f) ->
  os_path_exists w f = true.
Proof.
  intros S. destruct (find_some_table f S) as [rows M].
  destruct (find_success rows f M S) as (before & e & after & _ & _ & _ & _ & X).
  exact X.
Qed.

End PathResolver.

(** C1 (amended).  The path resolver returns a path exactly when the manifest
    table is in place and the first entry in index order whose [relativePath]
    is the logical path, or whose [domain], "-" and [relativePath] spell it,
    has its file [os.path.join(backupDir, fileID[:2], fileID)] on disk; that
    file is the result.  With no such entry the result is null.  The result
    reads backupDir/fileID[:2]/fileID whenever the directory is non-empty
    without a trailing separator and the identifier is non-empty without a
    separator. *)
Theorem find_ios_backup_file_resolves (w : world) (backup_dir ios_path : string) :
  (forall f,
      outcome (find_ios_backup_file w backup_dir ios_path) = Ok (Some f) <->
      exists rows before e after,
        manifest_holds w backup_dir rows /\
        rows = (before ++ e :: after)%list /\
        (forall e', In e' before -> ~ matches_path ios_path e') /\
        matches_path ios_path e /\
        f = os_path_join backup_dir [slice_to 2 (fileID e); fileID e] /\
        os_path_exists w f = true) /\
  (forall rows,
      manifest_holds w backup_dir rows ->
      (forall e, In e rows -> ~ matches_path ios_path e) ->
      outcome (find_ios_backup_file w backup_dir ios_path) = Ok None) /\
  (forall file_id,
      plain_dir backup_dir -> plain_id file_id ->
      os_path_join backup_dir [slice_to 2 file_id; file_id]
      = template_path backup_dir file_id).
Proof.
  split; [ | split ].
  - intros f. split.
    + intros S. destruct (find_some_table w backup_dir ios_path f S) as [rows M].
      destruct (find_success w backup_dir ios_path rows f M S)
        as (before & e & after & R & B & Y & E & X).
      exists rows, before, e, after. auto 10.
    + intros (rows & before & e & after & M & R & B & Y & -> & X).
      rewrite (find_first_match w backup_dir ios_path rows before e after M R B Y).
      unfold backup_file. now rewrite X.
  - intros rows. apply find_no_match.
  - intros file_id. apply backup_file_template.
Qed.

Lemma find_ios_backup_file_resolves_witness :
  outcome (find_ios_backup_file
             (demo_world (demo_info "12.1.2") (Files demo_rows)
                ["/work/bk/Manifest.db";
                 "bk/3d/3d0d7e5fb2ce288813306e4d4636395e047a3d28"])
             "bk" "Library/SMS/sms.db")
  = Ok (Some "bk/3d/3d0d7e5fb2ce288813306e4d4636395e047a3d28").
Proof.
  apply (proj1 (find_ios_backup_file_resolves _ "bk" "Library/SMS/sms.db")).
  exists demo_rows, [], (hd (mkEntry "" "" "") demo_rows), (tl demo_rows).
  split; [ split; reflexivity | ].
  split; [ reflexivity | ].
  split; [ intros e' [] | ].
  split; [ left; reflexivity | ].
  split; reflexivity.
Defined.

(** C1, counterexample.  With the empty backup directory (the current one)
    the resolver returns a relative path, not the text "/3d/3d0d...". *)
Lemma resolved_path_is_template_counterexample :
  outcome (find_ios_backup_file
             (demo_world (demo_info "12.1.2") (Files demo_rows)
                ["/work/Manifest.db"; "3d/3d0d7e5fb2ce288813306e4d4636395e047a3d28"])
             "" "Library/SMS/sms.db")
  = Ok (Some "3d/3d0d7e5fb2ce288813306e4d4636395e047a3d28") /\
  ~ resolved_path_is_template.
Proof.
  assert (E :
    outcome (find_ios_backup_file
               (demo_world (demo_info "12.1.2") (Files demo_rows)
                  ["/work/Manifest.db"; "3d/3d0d7e5fb2ce288813306e4d4636395e047a3d28"])
               "" "Library/SMS/sms.db")
    = Ok (Some "3d/3d0d7e5fb2ce288813306e4d4636395e047a3d28")) by reflexivity.
  split; [ exact E | ].
  intros C. destruct (C _ _ _ _ E) as [file_id H]. discriminate H.
Qed.

(** The cases in which the path resolver does return null, raising nothing:
    [Manifest.db] is absent, the query raises [sqlite3.OperationalError]
    (a schema mismatch), no row matches, the first matching row's file is
    not on disk.  A path is returned only if it exists on disk. *)
Theorem find_ios_backup_file_null_cases (w : world) (backup_dir ios_path : string) :
  (os_path_exists w (manifest_db w backup_dir) = false ->
   outcome (find_ios_backup_file w backup_dir ios_path) = Ok None) /\
  (os_path_exists w (manifest_db w backup_dir) = true ->
   connect (sqlite_at w (manifest_db w backup_dir)) = Ok tt ->
   execute (sqlite_at w (manifest_db w backup_dir)) (SelectByPath ios_path ios_path)
   = Raise OperationalError ->
   outcome (find_ios_backup_file w backup_dir ios_path) = Ok None) /\
  (forall rows,
      manifest_holds w backup_dir rows ->
      (forall e, In e rows -> ~ matches_path ios_path e) ->
      outcome (find_ios_backup_file w backup_dir ios_path) = Ok None) /\
  (forall rows before e after,
      manifest_holds w backup_dir rows ->
      rows = (before ++ e :: after)%list ->
      (forall e', In e' before -> ~ matches_path ios_path e') ->
      matches_path ios_path e ->
      os_path_exists w (backup_file backup_dir (fileID e)) = false ->
      outcome (find_ios_backup_file w backup_dir ios_path) = Ok None) /\
  (forall f,
      outcome (find_ios_backup_file w backup_dir ios_path) = Ok (Some f) ->
      os_path_exists w f = true).
Proof.
  split; [ | split; [ | split; [ | split ] ] ].
  - intros H. now rewrite (find_absent w backup_dir ios_path H).
  - intros H C X. now rewrite (find_operational_error w backup_dir ios_path H C X).
  - intros rows. apply find_no_match.
  - intros rows before e after M R N Y X.
    rewrite (find_first_match w backup_dir ios_path rows before e after M R N Y).
    now rewrite X.
  - apply find_some_exists.
Qed.

Lemma find_ios_backup_file_null_cases_witness :
  outcome (find_ios_backup_file
             (demo_world (demo_info "12.1.2") (Files demo_rows) [])
             "bk" "Library/SMS/sms.db") = Ok None /\
  outcome (find_ios_backup_file
             (demo_world (demo_info "12.1.2") SchemaMismatch ["/work/bk/Manifest.db"])
             "bk" "Library/SMS/sms.db") = Ok None /\
  outcome (find_ios_backup_file
             (demo_world (demo_info "12.1.2") (Files demo_rows) ["/work/bk/Manifest.db"])
             "bk" "Library/Notes/notes.sqlite") = Ok None /\
  outcome (find_ios_backup_file
             (demo_world (demo_info "12.1.2") (Files demo_rows) ["/work/bk/Manifest.db"])
             "bk" "Library/SMS/sms.db") = Ok None.
Proof.
  split; [ | split; [ | split ] ].
  - apply (proj1 (find_ios_backup_file_null_cases _ "bk" _)). reflexivity.
  - apply (proj1 (proj2 (find_ios_backup_file_null_cases _ "bk" _))); reflexivity.
  - apply (proj1 (proj2 (proj2 (find_ios_backup_file_null_cases _ "bk" _))) demo_rows).
    + split; reflexivity.
    + intros e [<- | [<- | [<- | []]]] [H | H]; discriminate H.
  - apply (proj1 (proj2 (proj2 (proj2 (find_ios_backup_file_null_cases _ "bk" _))))
             demo_rows [] (hd (mkEntry "" "" "") demo_rows) (tl demo_rows)).
    + split; reflexivity.
    + reflexivity.
    + intros e' [].
    + left. reflexivity.
    + reflexivity.
Defined.

(** ** The bundle resolver *)

Section BundleResolver.

Variable w : world.
Variables backup_dir bundle_identifier : string.

Let first_query : statement := SelectByDomain bundle_identifier.
Let second_query : statement := SelectByDomain ("AppDomain-" ++ bundle_identifier).

Let entered : list event :=
  [Call "get_app_folders_from_backup" [backup_dir; bundle_identifier];
   Exists (manifest_db w backup_dir)].

Lemma bundle_absent :
  os_path_exists w (manifest_db w backup_dir) = false ->
  get_app_folders_from_backup w backup_dir bundle_identifier
  = ((entered ++ [Print ("[!] Manifest.db not found in " ++ backup_dir)])%list,
     Ok None).
Proof.
  intros H. unfold get_app_folders_from_backup. fold (manifest_db w backup_dir).
  rewrite H. reflexivity.
Qed.

Lemma bundle_cannot_connect e :
  os_path_exists w (manifest_db w backup_dir) = true ->
  connect (sqlite_at w (manifest_db w backup_dir)) = Raise e ->
  get_app_folders_from_backup w backup_dir bundle_identifier
  = ((entered ++ [Connect (manifest_db w backup_dir)])%list, Raise e).
Proof.
  intros H C. unfold get_app_folders_from_backup. fold (manifest_db w backup_dir).
  rewrite H, C. reflexivity.
Qed.

(** No [try] surrounds the statement here: whatever it raises leaves the
    resolver, with the connection still open. *)
Lemma bundle_query_error e :
  os_path_exists w (manifest_db w backup_dir) = true ->
  connect (sqlite_at w (manifest_db w backup_dir)) = Ok tt ->
  execute (sqlite_at w (manifest_db w backup_dir)) first_query = Raise e ->
  get_app_folders_from_backup w backup_dir bundle_identifier
  = ((entered ++ [Connect (manifest_db w backup_dir); Execute first_query])%list,
     Raise e).
Proof.
  intros H C X. unfold get_app_folders_from_backup. fold (manifest_db w backup_dir).
  fold first_query. rewrite H, C, X. reflexivity.
Qed.

Lemma bundle_on_table rows :
  manifest_holds w backup_dir rows ->
  get_app_folders_from_backup w backup_dir bundle_identifier
  = match exact_rows bundle_identifier rows with
    | _ :: _ =>
        ((entered ++ [Connect (manifest_db w backup_dir); Execute first_query;
                      Close])%list,
         Ok (Some (map (reported backup_dir) (exact_rows bundle_identifier rows))))
    | [] =>
        match prefixed_rows bundle_identifier rows with
        | _ :: _ =>
            ((entered ++ [Connect (manifest_db w backup_dir); Execute first_query;
                          Execute second_query; Close])%list,
             Ok (Some (map (reported backup_dir) (prefixed_rows bundle_identifier rows))))
        | [] =>
            ((entered ++ [Connect (manifest_db w backup_dir); Execute first_query;
                          Execute second_query;
                          Print ("[!] No files found for " ++ bundle_identifier);
                          Close])%list,
             Ok None)
        end
    end.
Proof.
  intros [H T]. unfold get_app_folders_from_backup. fold (manifest_db w backup_dir).
  rewrite H, T.
  cbv beta iota zeta delta [negb bind lift emit ret connect execute].
  change (filter (selects (SelectByDomain bundle_identifier)) rows)
    with (exact_rows bundle_identifier rows).
  change (filter (selects (SelectByDomain ("AppDomain-" ++ bundle_identifier))) rows)
    with (prefixed_rows bundle_identifier rows).
  destruct (exact_rows bundle_identifier rows) as [ | r1 l1 ]; [ | reflexivity ].
  destruct (prefixed_rows bundle_identifier rows) as [ | r2 l2 ]; reflexivity.
Qed.

Lemma bundle_outcome rows :
  manifest_holds w backup_dir rows ->
  outcome (get_app_folders_from_backup w backup_dir bundle_identifier)
  = Ok match chosen_rows bundle_identifier rows with
       | [] => None
       | _ :: _ => Some (map (reported backup_dir) (chosen_rows bundle_identifier rows))
       end.
Proof.
  intros M. rewrite (bundle_on_table rows M). unfold chosen_rows.
  destruct (exact_rows bundle_identifier rows); [ | reflexivity ].
  destruct (prefixed_rows bundle_identifier rows); reflexivity.
Qed.

Lemma bundle_queries rows :
  manifest_holds w backup_dir rows ->
  filter is_execute (trace (get_app_folders_from_backup w backup_dir bundle_identifier))
  = Execute (SelectByDomain bundle_identifier)
    :: match exact_rows bundle_identifier rows with
       | [] => [Execute (SelectByDomain ("AppDomain-" ++ bundle_identifier))]
       | _ :: _ => []
       end.
Proof.
  intros M. rewrite (bundle_on_table rows M).
  destruct (exact_rows bundle_identifier rows); [ | reflexivity ].
  destruct (prefixed_rows bundle_identifier rows); reflexivity.
Qed.

(** Whatever state the manifest is in, the only path looked up on disk is
    that of the manifest itself. *)
Lemma bundle_disk_checks :
  filter is_exists (trace (get_app_folders_from_backup w backup_dir bundle_identifier))
  = [Exists (manifest_db w backup_dir)].
Proof.
  destruct (os_path_exists w (manifest_db w backup_dir)) eqn:H.
  - destruct (sqlite_at w (manifest_db w backup_dir)) as [ | | | rows ] eqn:T.
    + rewrite (bundle_cannot_connect OperationalError H); [ reflexivity | ].
      now rewrite T.
    + rewrite (bundle_query_error DatabaseError H); try reflexivity; now rewrite T.
    + rewrite (bundle_query_error OperationalError H); try reflexivity; now rewrite T.
    + rewrite (bundle_on_table rows (conj H T)).
      destruct (exact_rows bundle_identifier rows); [ | reflexivity ].
      destruct (prefixed_rows bundle_identifier rows); reflexivity.
  - rewrite (bundle_absent H). reflexivity.
Qed.

(** Only a manifest that holds the table lets the resolver return a list,
    and that list is never empty. *)
Lemma bundle_some_table l :
  outcome (get_app_folders_from_backup w backup_dir bundle_identifier) = Ok (Some l) ->
  exists rows,
    manifest_holds w backup_dir rows /\
    l = map (reported backup_dir) (chosen_rows bundle_identifier rows) /\
    l <> [].
Proof.
  destruct (os_path_exists w (manifest_db w backup_dir)) eqn:H.
  - destruct (sqlite_at w (manifest_db w backup_dir)) as [ | | | rows ] eqn:T.
    + rewrite (bundle_cannot_connect OperationalError H); [ discriminate | ].
      now rewrite T.
    + rewrite (bundle_query_error DatabaseError H); try discriminate; now rewrite T.
    + rewrite (bundle_query_error OperationalError H); try discriminate; now rewrite T.
    + rewrite (bundle_outcome rows (conj H T)).
      destruct (chosen_rows bundle_identifier rows) as [ | r c ] eqn:C;
        [ discriminate | ].
      intros [= <-]. exists rows. split; [ now split | ]. split;
        [ now rewrite C | discriminate ].
  - rewrite (bundle_absent H). discriminate.
Qed.

Lemma bundle_some_nonempty l :
  outcome (get_app_folders_from_backup w backup_dir bundle_identifier) = Ok (Some l) ->
  l <> [].
Proof.
  intros S. now destruct (bundle_some_table l S) as (rows & _ & _ & N).
Qed.

End BundleResolver.

Lemma in_domain_rows (d : string) (rows : list entry) (e : entry) :
  In e (filter (in_domain d) rows) <-> In e rows /\ domain e = d.
Proof. rewrite filter_In. unfold in_domain. now rewrite String.eqb_eq. Qed.

(** C2 (amended).  With the manifest table in place the bundle resolver runs
    the domain query with the identifier as given; only if that selects no
    row it runs it once more with "AppDomain-" in front; with no row after
    that it returns null, otherwise the selected rows in index order, each as
    ([os.path.join(backupDir, fileID[:2], fileID)], relativePath).  In no
    other situation does it return a list.  The only path it ever checks on
    disk is that of [Manifest.db].  The first component of a pair reads
    backupDir/fileID[:2]/fileID whenever the directory is non-empty without a
    trailing separator and the identifier is non-empty without a separator. *)
Theorem get_app_folders_from_backup_resolves
    (w : world) (backup_dir bundle_identifier : string) :
  (forall rows,
      manifest_holds w backup_dir rows ->
      (forall e, In e (exact_rows bundle_identifier rows)
                 <-> In e rows /\ domain e = bundle_identifier) /\
      (forall e, In e (prefixed_rows bundle_identifier rows)
                 <-> In e rows /\ domain e = "AppDomain-" ++ bundle_identifier) /\
      outcome (get_app_folders_from_backup w backup_dir bundle_identifier)
      = Ok match chosen_rows bundle_identifier rows with
           | [] => None
           | _ :: _ =>
               Some (map (reported backup_dir) (chosen_rows bundle_identifier rows))
           end /\
      filter is_execute
        (trace (get_app_folders_from_backup w backup_dir bundle_identifier))
      = Execute (SelectByDomain bundle_identifier)
        :: match exact_rows bundle_identifier rows with
           | [] => [Execute (SelectByDomain ("AppDomain-" ++ bundle_identifier))]
           | _ :: _ => []
           end) /\
  (forall l,
      outcome (get_app_folders_from_backup w backup_dir bundle_identifier) = Ok (Some l) ->
      exists rows,
        manifest_holds w backup_dir rows /\
        l = map (reported backup_dir) (chosen_rows bundle_identifier rows) /\
        l <> []) /\
  filter is_exists (trace (get_app_folders_from_backup w backup_dir bundle_identifier))
  = [Exists (manifest_db w backup_dir)] /\
  (forall e,
      reported backup_dir e
      = (os_path_join backup_dir [slice_to 2 (fileID e); fileID e], relativePath e) /\
      (plain_dir backup_dir -> plain_id (fileID e) ->
       fst (reported backup_dir e) = template_path backup_dir (fileID e))).
Proof.
  split; [ | split; [ | split ] ].
  - intros rows M.
    split; [ intros e; apply in_domain_rows | ].
    split; [ intros e; apply in_domain_rows | ].
    split; [ now apply bundle_outcome | now apply bundle_queries ].
  - apply bundle_some_table.
  - apply bundle_disk_checks.
  - intros e. split; [ reflexivity | ].
    intros Pd Pi. now apply backup_file_template.
Qed.

Lemma get_app_folders_from_backup_resolves_witness :
  outcome (get_app_folders_from_backup
             (demo_world (demo_info "12.1.2") (Files demo_rows) ["/work/bk/Manifest.db"])
             "bk" "com.facebook.Facebook")
  = Ok (Some [("bk/a1/a1b2c3d4e5f60718293a4b5c6d7e8f9012345678", "Documents/a.txt");
              ("bk/ff/ffeeddccbbaa99887766554433221100ffeeddcc", "Library/SMS/sms.db")]) /\
  filter is_execute
    (trace (get_app_folders_from_backup
              (demo_world (demo_info "12.1.2") (Files demo_rows) ["/work/bk/Manifest.db"])
              "bk" "com.facebook.Facebook"))
  = [Execute (SelectByDomain "com.facebook.Facebook");
     Execute (SelectByDomain "AppDomain-com.facebook.Facebook")].
Proof.
  pose proof (proj1 (get_app_folders_from_backup_resolves
                       (demo_world (demo_info "12.1.2") (Files demo_rows)
                          ["/work/bk/Manifest.db"])
                       "bk" "com.facebook.Facebook")
                demo_rows (conj eq_refl eq_refl))
    as (_ & _ & O & Q).
  split; [ exact O | exact Q ].
Defined.

(** C2, counterexample.  With the empty backup directory the reported paths
    are relative: "a1/a1b2...", not "/a1/a1b2...". *)
Lemma bundle_paths_are_templates_counterexample :
  outcome (get_app_folders_from_backup
             (demo_world (demo_info "12.1.2") (Files demo_rows) ["/work/Manifest.db"])
             "" "com.facebook.Facebook")
  = Ok (Some [("a1/a1b2c3d4e5f60718293a4b5c6d7e8f9012345678", "Documents/a.txt");
              ("ff/ffeeddccbbaa99887766554433221100ffeeddcc", "Library/SMS/sms.db")]) /\
  ~ bundle_paths_are_templates.
Proof.
  assert (E :
    outcome (get_app_folders_from_backup
               (demo_world (demo_info "12.1.2") (Files demo_rows) ["/work/Manifest.db"])
               "" "com.facebook.Facebook")
    = Ok (Some [("a1/a1b2c3d4e5f60718293a4b5c6d7e8f9012345678", "Documents/a.txt");
                ("ff/ffeeddccbbaa99887766554433221100ffeeddcc", "Library/SMS/sms.db")]))
    by reflexivity.
  split; [ exact E | ].
  intros C. destruct (C _ _ _ _ E _ (or_introl eq_refl)) as [file_id H].
  discriminate H.
Qed.

(** ** The command line *)

Section Main.

Variable w : world.
Variable a : args.

Let gate := is_backup_compatible w (search_path a).

(** An exception of the gate is an exception of the program. *)
Lemma main_gate_raises e :
  outcome gate = Raise e ->
  main w a = (trace gate, Raise e).
Proof.
  unfold gate, main. destruct (is_backup_compatible w (search_path a)) as [tg rg].
  unfold outcome, trace; cbn [fst snd]. intros ->. reflexivity.
Qed.

Lemma main_incompatible ver :
  outcome gate = Ok (false, ver) ->
  exists v,
    format_version ver = Ok v /\
    main w a
    = ((trace gate ++
        [Print ("[-] Backup: " ++ v ++ " is not supported (min 11.0.0)")])%list,
       Raise (SystemExit (-2))).
Proof.
  intros G.
  assert (F : exists v, format_version ver = Ok v).
  { destruct ver as [t | ]; [ | now exists "None" ].
    destruct (gate_version_has_attrs w (search_path a) false t G) as [x ->].
    eexists. reflexivity. }
  destruct F as [v F]. exists v. split; [ exact F | ].
  revert G. unfold gate, main.
  destruct (is_backup_compatible w (search_path a)) as [tg rg].
  unfold outcome, trace; cbn [fst snd]. intros ->.
  cbv beta iota zeta delta [bind lift emit ret negb exit raise].
  rewrite F. reflexivity.
Qed.

Lemma main_no_lookup ver :
  outcome gate = Ok (true, ver) ->
  path a = None -> bundle a = None ->
  main w a = (trace gate, Ok tt).
Proof.
  unfold gate, main. destruct (is_backup_compatible w (search_path a)) as [tg rg].
  unfold outcome, trace; cbn [fst snd]. intros -> -> ->.
  cbv beta iota zeta delta [bind lift emit ret negb exit raise].
  now rewrite !app_nil_r.
Qed.

Lemma main_path_lookup ver p :
  outcome gate = Ok (true, ver) ->
  path a = Some p ->
  main w a
  = let lookup := find_ios_backup_file w (search_path a) p in
    match outcome lookup with
    | Ok (Some f) =>
        ((trace gate ++ trace lookup ++ [Print ("[+] Found: " ++ f)])%list,
         Raise (SystemExit 0))
    | Ok None =>
        ((trace gate ++ trace lookup ++ [Print "[-] File not found."])%list,
         Raise (SystemExit (-1)))
    | Raise e => ((trace gate ++ trace lookup)%list, Raise e)
    end.
Proof.
  intros G P. cbv zeta.
  pose proof (find_some_exists w (search_path a) p) as X.
  revert G X. unfold gate, main. rewrite P.
  destruct (is_backup_compatible w (search_path a)) as [tg rg].
  destruct (find_ios_backup_file w (search_path a) p) as [tf rf].
  unfold outcome, trace; cbn [fst snd]. intros -> X.
  cbv beta iota zeta delta [bind lift emit ret negb exit raise].
  destruct rf as [[f | ] | e]; cbn [truthy_str]; try reflexivity.
  specialize (X f eq_refl). unfold os_path_exists in X.
  apply andb_true_iff in X. destruct X as [X _].
  destruct (is_empty f); [ discriminate X | ].
  now rewrite !app_nil_r.
Qed.

Lemma main_bundle_lookup ver b :
  outcome gate = Ok (true, ver) ->
  path a = None -> bundle a = Some b ->
  main w a
  = let lookup := get_app_folders_from_backup w (search_path a) b in
    match outcome lookup with
    | Ok (Some l) =>
        ((trace gate ++ trace lookup ++
          [Print ("[+] Found:" ++ newline ++
                  str_join newline
                    (map (fun xy => fst xy ++ " -> " ++ snd xy) l))%string])%list,
         Raise (SystemExit 0))
    | Ok None =>
        ((trace gate ++ trace lookup ++ [Print "[-] No paths not found."])%list,
         Raise (SystemExit (-1)))
    | Raise e => ((trace gate ++ trace lookup)%list, Raise e)
    end.
Proof.
  intros G P B. cbv zeta.
  pose proof (bundle_some_nonempty w (search_path a) b) as X.
  revert G X. unfold gate, main. rewrite P, B.
  destruct (is_backup_compatible w (search_path a)) as [tg rg].
  destruct (get_app_folders_from_backup w (search_path a) b) as [tf rf].
  unfold outcome, trace; cbn [fst snd]. intros -> X.
  cbv beta iota zeta delta [bind lift emit ret negb exit raise].
  destruct rf as [[l | ] | e]; cbn [truthy_list]; try reflexivity.
  specialize (X l eq_refl). destruct l as [ | x l ]; [ contradiction | ].
  now rewrite !app_nil_r.
Qed.

End Main.

(** ** Which resolver runs *)

Section ResolverCalls.

Variable w : world.

Lemma find_calls (backup_dir ios_path : string) :
  filter is_resolver_call (trace (find_ios_backup_file w backup_dir ios_path))
  = [Call "find_ios_backup_file" [backup_dir; ios_path]].
Proof.
  destruct (os_path_exists w (manifest_db w backup_dir)) eqn:H.
  - destruct (sqlite_at w (manifest_db w backup_dir)) as [ | | | rows ] eqn:T.
    + rewrite (find_cannot_connect w backup_dir ios_path OperationalError H);
        [ reflexivity | now rewrite T ].
    + rewrite (find_other_error w backup_dir ios_path DatabaseError H);
        try discriminate; try reflexivity; now rewrite T.
    + rewrite (find_operational_error w backup_dir ios_path H);
        try reflexivity; now rewrite T.
    + rewrite (find_on_table w backup_dir ios_path rows (conj H T)).
      destruct (filter _ rows) as [ | row sel ]; [ reflexivity | ].
      cbv zeta.
      destruct (os_path_exists w (backup_file backup_dir (fileID row))); reflexivity.
  - rewrite (find_absent w backup_dir ios_path H). reflexivity.
Qed.

Lemma bundle_calls (backup_dir bundle_identifier : string) :
  filter is_resolver_call
    (trace (get_app_folders_from_backup w backup_dir bundle_identifier))
  = [Call "get_app_folders_from_backup" [backup_dir; bundle_identifier]].
Proof.
  destruct (os_path_exists w (manifest_db w backup_dir)) eqn:H.
  - destruct (sqlite_at w (manifest_db w backup_dir)) as [ | | | rows ] eqn:T.
    + rewrite (bundle_cannot_connect w backup_dir bundle_identifier OperationalError H);
        [ reflexivity | now rewrite T ].
    + rewrite (bundle_query_error w backup_dir bundle_identifier DatabaseError H);
        try reflexivity; now rewrite T.
    + rewrite (bundle_query_error w backup_dir bundle_identifier OperationalError H);
        try reflexivity; now rewrite T.
    + rewrite (bundle_on_table w backup_dir bundle_identifier rows (conj H T)).
      destruct (exact_rows bundle_identifier rows); [ | reflexivity ].
      destruct (prefixed_rows bundle_identifier rows); reflexivity.
  - rewrite (bundle_absent w backup_dir bundle_identifier H). reflexivity.
Qed.

(** The resolver calls of a run, by what the gate said and which flags were
    given. *)
Lemma main_calls (a : args) :
  filter is_resolver_call (trace (main w a))
  = match outcome (is_backup_compatible w (search_path a)), path a, bundle a with
    | Ok (true, _), Some p, _ => [Call "find_ios_backup_file" [search_path a; p]]
    | Ok (true, _), None, Some b =>
        [Call "get_app_folders_from_backup" [search_path a; b]]
    | _, _, _ => []
    end.
Proof.
  pose proof (proj1 (gate_trace_quiet w (search_path a))) as Q.
  destruct (outcome (is_backup_compatible w (search_path a)))
    as [[[ | ] ver] | e] eqn:G.
  - destruct (path a) as [p | ] eqn:P; [ | destruct (bundle a) as [b | ] eqn:B ].
    + rewrite (main_path_lookup w a ver p G P). cbv zeta.
      pose proof (find_calls (search_path a) p) as F.
      destruct (outcome (find_ios_backup_file w (search_path a) p)) as [[f | ] | x];
        unfold trace in *; cbn [fst]; rewrite !filter_app, Q, F; reflexivity.
    + rewrite (main_bundle_lookup w a ver b G P B). cbv zeta.
      pose proof (bundle_calls (search_path a) b) as F.
      destruct (outcome (get_app_folders_from_backup w (search_path a) b))
        as [[l | ] | x];
        unfold trace in *; cbn [fst]; rewrite !filter_app, Q, F; reflexivity.
    + rewrite (main_no_lookup w a ver G P B).
      unfold trace in *; cbn [fst]. now rewrite Q.
  - destruct (main_incompatible w a ver G) as (v & _ & ->).
    unfold trace in *; cbn [fst]. rewrite filter_app, Q.
    now destruct (path a); destruct (bundle a).
  - rewrite (main_gate_raises w a e G).
    unfold trace in *; cbn [fst]. rewrite Q.
    now destruct (path a); destruct (bundle a).
Qed.

End ResolverCalls.

(** C10.  A run enters at most one resolver.  With [-d] given the run is the
    same as with [-b] left out, whatever [-b] says.  If the gate lets the
    backup through, the path resolver is the one entered and it is run to its
    end: the run consists of the gate, then the whole path lookup, then one
    line and the exit status that the result of the lookup decides: "Found"
    and 0 for a path, "File not found" and -1 for null; an exception of the
    lookup ends the run. *)
Theorem at_most_one_resolver_runs (w : world) (a : args) :
  (List.length (filter is_resolver_call (trace (main w a))) <= 1)%nat /\
  (forall p,
      path a = Some p ->
      main w a = main w (mkArgs (Some p) None (search_path a)) /\
      (forall ver,
          outcome (is_backup_compatible w (search_path a)) = Ok (true, ver) ->
          filter is_resolver_call (trace (main w a))
          = [Call "find_ios_backup_file" [search_path a; p]] /\
          main w a
          = let gate := is_backup_compatible w (search_path a) in
            let lookup := find_ios_backup_file w (search_path a) p in
            match outcome lookup with
            | Ok (Some f) =>
                ((trace gate ++ trace lookup ++ [Print ("[+] Found: " ++ f)])%list,
                 Raise (SystemExit 0))
            | Ok None =>
                ((trace gate ++ trace lookup ++ [Print "[-] File not found."])%list,
                 Raise (SystemExit (-1)))
            | Raise e => ((trace gate ++ trace lookup)%list, Raise e)
            end)).
Proof.
  split.
  - rewrite main_calls.
    destruct (outcome (is_backup_compatible w (search_path a))) as [[[ | ] ver] | e];
      destruct (path a); destruct (bundle a); simpl; lia.
  - intros p P. split.
    + unfold main. rewrite P. reflexivity.
    + intros ver G. split.
      * rewrite main_calls, G, P. reflexivity.
      * exact (main_path_lookup w a ver p G P).
Qed.

Lemma at_most_one_resolver_runs_witness :
  main (demo_world (demo_info "12.1.2") (Files demo_rows)
          ["/work/bk/Info.plist"; "/work/bk/Manifest.db";
           "bk/3d/3d0d7e5fb2ce288813306e4d4636395e047a3d28"])
       (mkArgs (Some "Library/SMS/sms.db") (Some "com.facebook.Facebook") "bk")
  = main (demo_world (demo_info "12.1.2") (Files demo_rows)
            ["/work/bk/Info.plist"; "/work/bk/Manifest.db";
             "bk/3d/3d0d7e5fb2ce288813306e4d4636395e047a3d28"])
         (mkArgs (Some "Library/SMS/sms.db") None "bk") /\
  main (demo_world (demo_info "12.1.2") (Files demo_rows)
          ["/work/bk/Info.plist"; "/work/bk/Manifest.db";
           "bk/3d/3d0d7e5fb2ce288813306e4d4636395e047a3d28"])
       (mkArgs (Some "Library/SMS/sms.db") (Some "com.facebook.Facebook") "bk")
  = ([Call "is_backup_compatible" ["bk"]; Exists "/work/bk/Info.plist";
      ReadFile "/work/bk/Info.plist";
      Call "find_ios_backup_file" ["bk"; "Library/SMS/sms.db"];
      Exists "/work/bk/Manifest.db"; Connect "/work/bk/Manifest.db";
      Execute (SelectByPath "Library/SMS/sms.db" "Library/SMS/sms.db");
      Close; Exists "bk/3d/3d0d7e5fb2ce288813306e4d4636395e047a3d28";
      Print "[+] Found: bk/3d/3d0d7e5fb2ce288813306e4d4636395e047a3d28"],
     Raise (SystemExit 0)).
Proof.
  destruct (proj2 (at_most_one_resolver_runs
                     (demo_world (demo_info "12.1.2") (Files demo_rows)
                        ["/work/bk/Info.plist"; "/work/bk/Manifest.db";
                         "bk/3d/3d0d7e5fb2ce288813306e4d4636395e047a3d28"])
                     (mkArgs (Some "Library/SMS/sms.db")
                             (Some "com.facebook.Facebook") "bk"))
              "Library/SMS/sms.db" eq_refl) as [E K].
  split; [ exact E | ].
  exact (proj2 (K (Some (Attrs (mkVersion 12 1 2))) eq_refl)).
Defined.

(** ** Exit status *)

(** C9.  When the gate says the backup is not compatible the program exits
    with -2 and no resolver is entered and no statement run.  When it says
    compatible: a path lookup that returns a file exits with 0 and one that
    returns null with -1; the same for a bundle lookup when [-d] is absent;
    with neither flag the run consists of the gate alone and ends with
    status 0. *)
Theorem exit_codes (w : world) (a : args) :
  (forall ver,
      outcome (is_backup_compatible w (search_path a)) = Ok (false, ver) ->
      outcome (main w a) = Raise (SystemExit (-2)) /\
      exit_status (outcome (main w a)) = -2 /\
      filter is_resolver_call (trace (main w a)) = [] /\
      filter is_execute (trace (main w a)) = []) /\
  (forall ver,
      outcome (is_backup_compatible w (search_path a)) = Ok (true, ver) ->
      (forall p f,
          path a = Some p ->
          outcome (find_ios_backup_file w (search_path a) p) = Ok (Some f) ->
          outcome (main w a) = Raise (SystemExit 0)) /\
      (forall p,
          path a = Some p ->
          outcome (find_ios_backup_file w (search_path a) p) = Ok None ->
          outcome (main w a) = Raise (SystemExit (-1))) /\
      (forall b l,
          path a = None -> bundle a = Some b ->
          outcome (get_app_folders_from_backup w (search_path a) b) = Ok (Some l) ->
          outcome (main w a) = Raise (SystemExit 0)) /\
      (forall b,
          path a = None -> bundle a = Some b ->
          outcome (get_app_folders_from_backup w (search_path a) b) = Ok None ->
          outcome (main w a) = Raise (SystemExit (-1))) /\
      (path a = None -> bundle a = None ->
       main w a = (trace (is_backup_compatible w (search_path a)), Ok tt) /\
       exit_status (outcome (main w a)) = 0 /\
       filter is_resolver_call (trace (main w a)) = [])).
Proof.
  split.
  - intros ver G.
    pose proof (main_calls w a) as C. rewrite G in C.
    destruct (gate_trace_quiet w (search_path a)) as [_ Q].
    destruct (main_incompatible w a ver G) as (v & _ & E).
    rewrite E in *. unfold trace, outcome in *; cbn [fst snd] in *.
    repeat split.
    + exact C.
    + rewrite filter_app, Q. reflexivity.
  - intros ver G. split; [ | split; [ | split; [ | split ] ] ].
    + intros p f P F. rewrite (main_path_lookup w a ver p G P). cbv zeta.
      now rewrite F.
    + intros p P F. rewrite (main_path_lookup w a ver p G P). cbv zeta.
      now rewrite F.
    + intros b l P B F. rewrite (main_bundle_lookup w a ver b G P B). cbv zeta.
      now rewrite F.
    + intros b P B F. rewrite (main_bundle_lookup w a ver b G P B). cbv zeta.
      now rewrite F.
    + intros P B. split; [ exact (main_no_lookup w a ver G P B) | ]. split.
      * rewrite (main_no_lookup w a ver G P B). reflexivity.
      * rewrite main_calls, G, P, B. reflexivity.
Qed.

Lemma exit_codes_witness :
  outcome (main (demo_world (demo_info "10.0") (Files demo_rows)
                   ["/work/bk/Info.plist"; "/work/bk/Manifest.db"])
                (mkArgs (Some "Library/SMS/sms.db") None "bk"))
  = Raise (SystemExit (-2)) /\
  outcome (main (demo_world (demo_info "12.1.2") (Files demo_rows)
                   ["/work/bk/Info.plist"; "/work/bk/Manifest.db";
                    "bk/3d/3d0d7e5fb2ce288813306e4d4636395e047a3d28"])
                (mkArgs (Some "Library/SMS/sms.db") None "bk"))
  = Raise (SystemExit 0) /\
  outcome (main (demo_world (demo_info "12.1.2") (Files demo_rows)
                   ["/work/bk/Info.plist"; "/work/bk/Manifest.db"])
                (mkArgs (Some "Library/SMS/sms.db") None "bk"))
  = Raise (SystemExit (-1)) /\
  outcome (main (demo_world (demo_info "12.1.2") (Files demo_rows)
                   ["/work/bk/Info.plist"; "/work/bk/Manifest.db"])
                (mkArgs None (Some "com.facebook.Facebook") "bk"))
  = Raise (SystemExit 0) /\
  outcome (main (demo_world (demo_info "12.1.2") (Files demo_rows)
                   ["/work/bk/Info.plist"; "/work/bk/Manifest.db"])
                (mkArgs None (Some "com.example.absent") "bk"))
  = Raise (SystemExit (-1)) /\
  main (demo_world (demo_info "12.1.2") (Files demo_rows)
          ["/work/bk/Info.plist"; "/work/bk/Manifest.db"])
       (mkArgs None None "bk")
  = ([Call "is_backup_compatible" ["bk"]; Exists "/work/bk/Info.plist";
      ReadFile "/work/bk/Info.plist"],
     Ok tt).
Proof.
  split; [ | split; [ | split; [ | split; [ | split ] ] ] ];
    match goal with
    | |- outcome (main ?W ?A) = _ => destruct (exit_codes W A) as [No Yes]
    | |- main ?W ?A = _ => destruct (exit_codes W A) as [No Yes]
    end.
  - exact (proj1 (No _ eq_refl)).
  - exact (proj1 (Yes _ eq_refl) _ _ eq_refl eq_refl).
  - exact (proj1 (proj2 (Yes _ eq_refl)) _ eq_refl eq_refl).
  - exact (proj1 (proj2 (proj2 (Yes _ eq_refl))) _ _ eq_refl eq_refl eq_refl).
  - exact (proj1 (proj2 (proj2 (proj2 (Yes _ eq_refl)))) _ eq_refl eq_refl eq_refl).
  - exact (proj1 (proj2 (proj2 (proj2 (proj2 (Yes _ eq_refl)))) eq_refl eq_refl)).
Defined.

(** ** Exceptions that reach the top *)

(** C5.  Two inputs on which an exception leaves the program: an
    [Info.plist] that loads but lacks "Product Version" ([AttributeError] out
    of the gate, whatever the flags), and a bundle lookup on a [Manifest.db]
    whose schema has no usable [Files] table ([OperationalError] out of the
    resolver's unguarded [execute]).  On the same manifest the path lookup
    catches the error and the program exits with -1. *)
Theorem exceptions_reach_top_level :
  (forall w a d,
      info_loads w (search_path a) d ->
      (forall v, ~ In (TARGET_BACKUP_INFO_KEY, v) d) ->
      outcome (main w a) = Raise AttributeError /\ crashed (outcome (main w a))) /\
  (forall w a ver b,
      outcome (is_backup_compatible w (search_path a)) = Ok (true, ver) ->
      os_path_exists w (manifest_db w (search_path a)) = true ->
      sqlite_at w (manifest_db w (search_path a)) = SchemaMismatch ->
      path a = None -> bundle a = Some b ->
      outcome (main w a) = Raise OperationalError /\ crashed (outcome (main w a))) /\
  (forall w a ver p,
      outcome (is_backup_compatible w (search_path a)) = Ok (true, ver) ->
      os_path_exists w (manifest_db w (search_path a)) = true ->
      sqlite_at w (manifest_db w (search_path a)) = SchemaMismatch ->
      path a = Some p ->
      outcome (main w a) = Raise (SystemExit (-1))).
Proof.
  split; [ | split ].
  - intros w a d L A.
    pose proof (gate_missing_key w (search_path a) d L A) as G.
    rewrite (main_gate_raises w a AttributeError G).
    split; [ reflexivity | exact I ].
  - intros w a ver b G H T P B.
    rewrite (main_bundle_lookup w a ver b G P B). cbv zeta.
    rewrite (bundle_query_error w (search_path a) b OperationalError H);
      [ | now rewrite T | now rewrite T ].
    split; [ reflexivity | exact I ].
  - intros w a ver p G H T P.
    rewrite (main_path_lookup w a ver p G P). cbv zeta.
    rewrite (find_operational_error w (search_path a) p H);
      [ | now rewrite T | now rewrite T ].
    reflexivity.
Qed.

Lemma exceptions_reach_top_level_witness :
  outcome (main (demo_world (Loaded (VDict [("Device Name", VStr "phone")]))
                   (Files demo_rows) ["/work/bk/Info.plist"; "/work/bk/Manifest.db"])
                (mkArgs (Some "Library/SMS/sms.db") None "bk"))
  = Raise AttributeError /\
  outcome (main (demo_world (demo_info "12.1.2") SchemaMismatch
                   ["/work/bk/Info.plist"; "/work/bk/Manifest.db"])
                (mkArgs None (Some "com.facebook.Facebook") "bk"))
  = Raise OperationalError /\
  outcome (main (demo_world (demo_info "12.1.2") SchemaMismatch
                   ["/work/bk/Info.plist"; "/work/bk/Manifest.db"])
                (mkArgs (Some "Library/SMS/sms.db") None "bk"))
  = Raise (SystemExit (-1)).
Proof.
  destruct exceptions_reach_top_level as (A & B & C).
  split; [ | split ];
    match goal with
    | |- outcome (main ?W ?X) = _ =>
        pose proof (A W X) as A'; pose proof (B W X) as B'; pose proof (C W X) as C'
    end.
  - refine (proj1 (A' [("Device Name", VStr "phone")] (conj eq_refl eq_refl) _)).
    intros v [E | []]. discriminate E.
  - exact (proj1 (B' _ _ eq_refl eq_refl eq_refl eq_refl eq_refl)).
  - exact (C' _ _ eq_refl eq_refl eq_refl eq_refl).
Defined.

(** ** A query failure that is not caught *)

(** C4.  The path resolver does not turn every failure of the manifest query
    into null.  Its handler, the one that prints "Could not query
    Manifest.db" and returns null, is entered for [sqlite3.OperationalError]
    only.  A statement that raises another error, as on a [Manifest.db] that
    is not an SQLite file ([sqlite3.DatabaseError]), ends the resolver with
    that error: nothing is printed and the connection is not closed.  A run
    with [-d] on such a backup ends with the exception, not with exit
    status -1. *)
Theorem find_ios_backup_file_query_error_escapes
    (w : world) (backup_dir ios_path : string) :
  (forall e,
      os_path_exists w (manifest_db w backup_dir) = true ->
      connect (sqlite_at w (manifest_db w backup_dir)) = Ok tt ->
      execute (sqlite_at w (manifest_db w backup_dir)) (SelectByPath ios_path ios_path)
      = Raise e ->
      e <> OperationalError ->
      outcome (find_ios_backup_file w backup_dir ios_path) = Raise e /\
      printed (find_ios_backup_file w backup_dir ios_path) = [] /\
      filter is_close (trace (find_ios_backup_file w backup_dir ios_path)) = []) /\
  (os_path_exists w (manifest_db w backup_dir) = true ->
   sqlite_at w (manifest_db w backup_dir) = NotADatabase ->
   outcome (find_ios_backup_file w backup_dir ios_path) = Raise DatabaseError /\
   (forall a ver,
       search_path a = backup_dir ->
       path a = Some ios_path ->
       outcome (is_backup_compatible w backup_dir) = Ok (true, ver) ->
       outcome (main w a) = Raise DatabaseError /\ crashed (outcome (main w a)))) /\
  ~ query_failure_is_null.
Proof.
  split; [ | split ].
  - intros e H C X N.
    rewrite (find_other_error w backup_dir ios_path e H C X N).
    repeat split.
  - intros H T.
    assert (F : outcome (find_ios_backup_file w backup_dir ios_path)
                = Raise DatabaseError).
    { rewrite (find_other_error w backup_dir ios_path DatabaseError H);
        [ reflexivity | now rewrite T | now rewrite T | discriminate ]. }
    split; [ exact F | ].
    intros a ver <- P G.
    rewrite (main_path_lookup w a ver ios_path G P). cbv zeta.
    rewrite F. split; [ reflexivity | exact I ].
  - intros C.
    specialize (C (demo_world (demo_info "12.1.2") NotADatabase ["/work/bk/Manifest.db"])
                  "bk" "Library/SMS/sms.db" DatabaseError eq_refl eq_refl eq_refl).
    discriminate C.
Qed.

Lemma find_ios_backup_file_query_error_escapes_witness :
  outcome (find_ios_backup_file
             (demo_world (demo_info "12.1.2") NotADatabase
                ["/work/bk/Info.plist"; "/work/bk/Manifest.db"])
             "bk" "Library/SMS/sms.db")
  = Raise DatabaseError /\
  outcome (main (demo_world (demo_info "12.1.2") NotADatabase
                   ["/work/bk/Info.plist"; "/work/bk/Manifest.db"])
                (mkArgs (Some "Library/SMS/sms.db") None "bk"))
  = Raise DatabaseError.
Proof.
  destruct (proj1 (proj2 (find_ios_backup_file_query_error_escapes
                            (demo_world (demo_info "12.1.2") NotADatabase
                               ["/work/bk/Info.plist"; "/work/bk/Manifest.db"])
                            "bk" "Library/SMS/sms.db")) eq_refl eq_refl) as [F M].
  split; [ exact F | ].
  exact (proj1 (M (mkArgs (Some "Library/SMS/sms.db") None "bk")
                  (Some (Attrs (mkVersion 12 1 2))) eq_refl eq_refl eq_refl)).
Defined.

(* ================================================================== *)
(** * Further properties of the script *)

(** ** Printing and parsing versions *)

Section VersionText.

Lemma int_of_str_minus d :
  d <> Nil -> (nb_digits d <= MAX_STR_DIGITS)%nat ->
  int_of_str (String "-" (numeral d)) = Ok (- Z.of_uint d).
Proof.
  intros Hd Hn. unfold int_of_str.
  change (skip_spaces (String "-" (numeral d))) with (String "-" (numeral d)).
  cbv beta iota. change (Ascii.eqb "-" "+") with false.
  change (Ascii.eqb "-" "-") with true. cbv iota.
  now rewrite (int_unsigned_numeral d Hd Hn).
Qed.

Lemma of_uint_to_uint (p : positive) : Z.of_uint (Pos.to_uint p) = Z.pos p.
Proof. unfold Z.of_uint. now rewrite DecimalPos.Unsigned.of_to. Qed.

Lemma str_of_int_pos (p : positive) : str_of_int (Z.pos p) = numeral (Pos.to_uint p).
Proof.
  unfold str_of_int, numeral. simpl Z.to_int.
  unfold NilZero.string_of_int, NilZero.string_of_uint.
  pose proof (DecimalPos.Unsigned.to_uint_nonnil p) as N.
  destruct (Pos.to_uint p); [ contradiction | reflexivity .. ].
Qed.

Lemma str_of_int_neg (p : positive) :
  str_of_int (Z.neg p) = String "-" (numeral (Pos.to_uint p)).
Proof.
  unfold str_of_int, numeral. simpl Z.to_int.
  unfold NilZero.string_of_int, NilZero.string_of_uint.
  pose proof (DecimalPos.Unsigned.to_uint_nonnil p) as N.
  destruct (Pos.to_uint p); [ contradiction | reflexivity .. ].
Qed.

(** *** What [int] returns is within the cap *)

Lemma digit_value_range c k : digit_value c = Some k -> 0 <= k <= 9.
Proof.
  unfold digit_value.
  destruct (Nat.leb 48 (nat_of_ascii c) && Nat.leb (nat_of_ascii c) 57)%bool eqn:E;
    [ | discriminate ].
  apply andb_true_iff in E. destruct E as [L U].
  apply Nat.leb_le in L. apply Nat.leb_le in U. intros [= <-]. lia.
Qed.

Lemma scan_digits_bound s :
  forall prev acc n v n' q rest,
    0 <= acc ->
    scan_digits s prev acc n = Some (v, n', q, rest) ->
    (n <= n')%nat /\ 0 <= v /\ v + 1 <= (acc + 1) * 10 ^ Z.of_nat (n' - n).
Proof.
  induction s as [ | c s IH ]; intros prev acc n v n' q rest Ha; cbn [scan_digits].
  - intros [= <- <- _ _]. rewrite Nat.sub_diag. simpl. lia.
  - destruct (Ascii.eqb c "_").
    + destruct prev as [p | ]; [ destruct (Ascii.eqb p "_"); [ discriminate | ] | ];
        now apply IH.
    + destruct (digit_value c) as [k | ] eqn:K.
      * intros Hs. apply digit_value_range in K.
        assert (Hk : 0 <= 10 * acc + k) by lia.
        destruct (IH _ _ _ _ _ _ _ Hk Hs) as (Ln & Hv & B).
        split; [ lia | ]. split; [ exact Hv | ].
        replace (n' - n)%nat with (S (n' - S n)) by lia.
        rewrite Nat2Z.inj_succ, Z.pow_succ_r by lia.
        assert (0 <= 10 ^ Z.of_nat (n' - S n)) by (apply Z.pow_nonneg; lia).
        nia.
      * intros [= <- <- _ _]. rewrite Nat.sub_diag. simpl. lia.
Qed.

Lemma int_unsigned_bound s v :
  int_unsigned s = Ok v -> 0 <= v < 10 ^ Z.of_nat MAX_STR_DIGITS.
Proof.
  unfold int_unsigned. destruct s as [ | c s ]; [ discriminate | ].
  destruct (Ascii.eqb c "_"); [ discriminate | ].
  destruct (scan_digits (String c s) None 0 0) as [[[[x n] [q | ]] rest] | ] eqn:Hs;
    try discriminate.
  destruct (Ascii.eqb q "_"); [ discriminate | ].
  destruct (is_empty (skip_spaces rest)); [ | discriminate ].
  destruct (Nat.ltb MAX_STR_DIGITS n) eqn:L; [ discriminate | ].
  intros [= <-]. apply Nat.ltb_ge in L.
  destruct (scan_digits_bound _ _ _ _ _ _ _ _ (Z.le_refl 0) Hs) as (_ & Hx & B).
  rewrite Nat.sub_0_r in B.
  assert (10 ^ Z.of_nat n <= 10 ^ Z.of_nat MAX_STR_DIGITS)
    by (apply Z.pow_le_mono_r; lia).
  lia.
Qed.

Lemma int_of_str_bound s z :
  int_of_str s = Ok z -> Z.abs z < 10 ^ Z.of_nat MAX_STR_DIGITS.
Proof.
  unfold int_of_str. destruct (skip_spaces s) as [ | c s' ]; [ discriminate | ].
  destruct (Ascii.eqb c "+").
  { intros H. apply int_unsigned_bound in H. lia. }
  destruct (Ascii.eqb c "-").
  { destruct (int_unsigned s') as [v | ] eqn:U; cbn [rbind]; [ | discriminate ].
    intros [= <-]. apply int_unsigned_bound in U. lia. }
  intros H. apply int_unsigned_bound in H. lia.
Qed.

(** *** What is within the cap prints in at most that many digits *)

Lemma of_uint_acc_lower l :
  forall acc,
    Z.pos acc * 10 ^ Z.of_nat (nb_digits l) <= Z.pos (Pos.of_uint_acc l acc).
Proof.
  induction l; intros acc; cbn [nb_digits Pos.of_uint_acc];
    [ simpl; lia | .. ];
    rewrite Nat2Z.inj_succ, Z.pow_succ_r by lia;
    (etransitivity; [ | apply IHl ]);
    assert (0 <= 10 ^ Z.of_nat (nb_digits l)) by (apply Z.pow_nonneg; lia);
    nia.
Qed.

Lemma to_uint_nzhead (p : positive) : nzhead (Pos.to_uint p) = Pos.to_uint p.
Proof.
  assert (U : unorm (Pos.to_uint p) = Pos.to_uint p).
  { rewrite <- DecimalPos.Unsigned.to_of, DecimalPos.Unsigned.of_to. reflexivity. }
  unfold unorm in U.
  destruct (nzhead (Pos.to_uint p)) eqn:E; try exact U.
  exfalso. apply (DecimalPos.Unsigned.to_uint_nonzero p). now rewrite <- U.
Qed.

Lemma to_uint_digits (p : positive) (n : nat) :
  Z.pos p < 10 ^ Z.of_nat n -> (nb_digits (Pos.to_uint p) <= n)%nat.
Proof.
  intros B. pose proof (of_uint_to_uint p) as V.
  pose proof (to_uint_nzhead p) as Hz.
  destruct (Pos.to_uint p) as [ | l | l | l | l | l | l | l | l | l | l ] eqn:E;
    [ now destruct (DecimalPos.Unsigned.to_uint_nonnil p)
    | simpl in Hz; now destruct (DecimalFacts.nzhead_nonzero l l)
    | .. ];
    unfold Z.of_uint in V; cbn [Pos.of_uint N.of_uint Z.of_N] in V;
    match type of V with
    | Z.pos (Pos.of_uint_acc _ ?k) = _ => pose proof (of_uint_acc_lower l k) as L
    end;
    cbn [nb_digits];
    (destruct (Nat.le_gt_cases n (nb_digits l)) as [G | G]; [ exfalso | lia ]);
    assert (10 ^ Z.of_nat n <= 10 ^ Z.of_nat (nb_digits l))
      by (apply Z.pow_le_mono_r; lia);
    assert (0 < 10 ^ Z.of_nat (nb_digits l)) by (apply Z.pow_pos_nonneg; lia);
    nia.
Qed.

(** [int(str(n)) == n] for every int within the cap. *)
Lemma int_of_str_of_int (z : Z) :
  Z.abs z < 10 ^ Z.of_nat MAX_STR_DIGITS -> int_of_str (str_of_int z) = Ok z.
Proof.
  destruct z as [ | p | p ]; intros B.
  - reflexivity.
  - rewrite str_of_int_pos, int_of_str_numeral, of_uint_to_uint;
      [ reflexivity | apply DecimalPos.Unsigned.to_uint_nonnil
      | now apply to_uint_digits ].
  - rewrite str_of_int_neg, int_of_str_minus, of_uint_to_uint;
      [ reflexivity | apply DecimalPos.Unsigned.to_uint_nonnil
      | now apply to_uint_digits ].
Qed.

Lemma part_or_zero_bound parts i z :
  part_or_zero parts i = Ok z -> within_cap z.
Proof.
  unfold part_or_zero, within_cap. destruct (nth_error parts i) as [p | ].
  - apply int_of_str_bound.
  - intros [= <-]. change (Z.abs 0) with 0. apply Z.pow_pos_nonneg; lia.
Qed.

(** What the constructor stores is within the cap. *)
Lemma init_within_cap (arg : value) (a b c : Z) :
  init arg = Ok (Attrs (mkVersion a b c)) ->
  within_cap a /\ within_cap b /\ within_cap c.
Proof.
  destruct arg; try discriminate. rewrite init_text.
  destruct (int_of_str (hd "" (split_dot s))) as [z0 | ] eqn:E0;
    cbn [rbind]; [ | discriminate ].
  destruct (part_or_zero (split_dot s) 1) as [z1 | ] eqn:E1;
    cbn [rbind]; [ | discriminate ].
  destruct (part_or_zero (split_dot s) 2) as [z2 | ] eqn:E2;
    cbn [rbind]; [ | discriminate ].
  intros [= <- <- <-].
  split; [ exact (int_of_str_bound _ _ E0) | ].
  split; [ exact (part_or_zero_bound _ _ _ E1) | exact (part_or_zero_bound _ _ _ E2) ].
Qed.

Lemma has_dot_numeral d : has_dot (numeral d) = false.
Proof. unfold numeral. induction d; simpl; auto. Qed.

Lemma has_dot_str_of_int z : has_dot (str_of_int z) = false.
Proof.
  destruct z as [ | p | p ].
  - reflexivity.
  - rewrite str_of_int_pos. apply has_dot_numeral.
  - rewrite str_of_int_neg. simpl. apply has_dot_numeral.
Qed.

Lemma split_dot_dotless s r :
  has_dot s = false ->
  split_dot (s ++ r) = (s ++ hd "" (split_dot r)) :: tl (split_dot r).
Proof.
  induction s as [ | c s IH ]; simpl.
  - intros _. pose proof (split_dot_nonempty r). now destruct (split_dot r).
  - intros H. apply orb_false_iff in H. destruct H as [Hc Hs].
    rewrite Hc, (IH Hs). reflexivity.
Qed.

Lemma split_dot_piece s r :
  has_dot s = false -> split_dot (s ++ "." ++ r) = s :: split_dot r.
Proof. intros H. rewrite (split_dot_dotless _ _ H). simpl. now rewrite append_empty. Qed.

Lemma split_dot_whole s : has_dot s = false -> split_dot s = [s].
Proof.
  intros H. rewrite <- (append_empty s) at 1.
  rewrite (split_dot_dotless _ _ H). simpl. now rewrite append_empty.
Qed.

End VersionText.

(** X1.  Printing a version and parsing the text gives the version back:
    [iOSVersion(str(v)) == v] for every [v] whose components are within the
    interpreter's digit cap, negative components included, and so for every
    [v] that the constructor has built. *)
Theorem version_str_round_trip (v : iOSVersion) :
  (within_cap (major v) -> within_cap (minor v) -> within_cap (bugfix v) ->
   rbind (__str__ (Attrs v)) (fun s => init (VStr s)) = Ok (Attrs v)) /\
  (forall arg,
      init arg = Ok (Attrs v) ->
      rbind (__str__ (Attrs v)) (fun s => init (VStr s)) = Ok (Attrs v)).
Proof.
  destruct v as [a b c]. cbn [major minor bugfix].
  assert (R : within_cap a -> within_cap b -> within_cap c ->
              rbind (__str__ (Attrs (mkVersion a b c))) (fun s => init (VStr s))
              = Ok (Attrs (mkVersion a b c))).
  { intros Ba Bb Bc. unfold __str__, attrs. cbn [rbind major minor bugfix].
    rewrite init_text.
    rewrite (split_dot_piece _ _ (has_dot_str_of_int a)).
    rewrite (split_dot_piece _ _ (has_dot_str_of_int b)).
    rewrite (split_dot_whole _ (has_dot_str_of_int c)).
    simpl hd. unfold part_or_zero. simpl nth_error.
    now rewrite (int_of_str_of_int a Ba), (int_of_str_of_int b Bb),
      (int_of_str_of_int c Bc). }
  split; [ exact R | ].
  intros arg B. destruct (init_within_cap arg a b c B) as (Ba & Bb & Bc).
  now apply R.
Qed.

Lemma version_str_round_trip_witness :
  rbind (__str__ (Attrs (mkVersion 12 (-1) 0))) (fun s => init (VStr s))
  = Ok (Attrs (mkVersion 12 (-1) 0)).
Proof.
  exact (proj2 (version_str_round_trip (mkVersion 12 (-1) 0))
           (VStr " 0012.-1") eq_refl).
Defined.

(** X2.  Only the first three components of version text are looked at: after
    "X.Y.Z.", with X, Y and Z numerals of at most 4300 digits each, anything
    may follow, numeric or not, and the result is the triple (X, Y, Z). *)
Theorem version_ignores_fourth_component
    (x y z rest : string) (dx dy dz : uint) :
  NilZero.uint_of_string x = Some dx ->
  NilZero.uint_of_string y = Some dy ->
  NilZero.uint_of_string z = Some dz ->
  (String.length x <= MAX_STR_DIGITS)%nat ->
  (String.length y <= MAX_STR_DIGITS)%nat ->
  (String.length z <= MAX_STR_DIGITS)%nat ->
  init (VStr (x ++ "." ++ y ++ "." ++ z ++ "." ++ rest))
  = Ok (Attrs (mkVersion (Z.of_uint dx) (Z.of_uint dy) (Z.of_uint dz))).
Proof.
  intros Hx Hy Hz Lx Ly Lz.
  destruct (numeral_text x dx Hx) as [-> Nx].
  destruct (numeral_text y dy Hy) as [-> Ny].
  destruct (numeral_text z dz Hz) as [-> Nz].
  rewrite length_numeral in Lx, Ly, Lz.
  rewrite init_text.
  rewrite (split_dot_piece _ _ (has_dot_numeral dx)).
  rewrite (split_dot_piece _ _ (has_dot_numeral dy)).
  rewrite (split_dot_piece _ _ (has_dot_numeral dz)).
  simpl hd. unfold part_or_zero. simpl nth_error.
  rewrite (int_of_str_numeral dx Nx Lx), (int_of_str_numeral dy Ny Ly),
    (int_of_str_numeral dz Nz Lz).
  reflexivity.
Qed.

Lemma version_ignores_fourth_component_witness :
  init (VStr "12.1.2.beta-3") = Ok (Attrs (mkVersion 12 1 2)).
Proof.
  apply (version_ignores_fourth_component "12" "1" "2" "beta-3"
           (D1 (D2 Nil)) (D1 Nil) (D2 Nil));
    try reflexivity; apply Nat.leb_le; reflexivity.
Defined.

Section VersionErrors.

Lemma int_unsigned_error s e : int_unsigned s = Raise e -> e = ValueError.
Proof.
  unfold int_unsigned. destruct s as [ | c s ]; [ now intros [= <-] | ].
  destruct (Ascii.eqb c "_"); [ now intros [= <-] | ].
  destruct (scan_digits (String c s) None 0 0) as [[[[v n] [q | ]] rest] | ];
    try (now intros [= <-]).
  destruct (Ascii.eqb q "_"); [ now intros [= <-] | ].
  destruct (is_empty (skip_spaces rest)); [ | now intros [= <-] ].
  destruct (Nat.ltb MAX_STR_DIGITS n); [ now intros [= <-] | discriminate ].
Qed.

(** [int] on text raises nothing but [ValueError]. *)
Lemma int_of_str_error s e : int_of_str s = Raise e -> e = ValueError.
Proof.
  unfold int_of_str. destruct (skip_spaces s) as [ | c s' ]; [ now intros [= <-] | ].
  destruct (Ascii.eqb c "+"); [ apply int_unsigned_error | ].
  destruct (Ascii.eqb c "-"); [ | apply int_unsigned_error ].
  destruct (int_unsigned s') as [v | x] eqn:U; simpl; [ discriminate | ].
  intros [= <-]. now apply int_unsigned_error with s'.
Qed.

Lemma int_of_str_cases s :
  (exists z, int_of_str s = Ok z) \/ int_of_str s = Raise ValueError.
Proof.
  destruct (int_of_str s) as [z | e] eqn:E; [ left; now exists z | right ].
  now rewrite (int_of_str_error s e E).
Qed.

End VersionErrors.

(** X3.  Version text with an empty piece among its first three components
    (the empty text, "11.", ".5", "1..2") is rejected by the constructor with
    [ValueError]. *)
Theorem version_empty_component_raises (s : string) :
  In "" (firstn 3 (split_dot s)) ->
  init (VStr s) = Raise ValueError.
Proof.
  rewrite init_text. unfold part_or_zero.
  destruct (split_dot s) as [ | p0 [ | p1 [ | p2 ps ] ] ];
    cbn [firstn In hd nth_error].
  - intros [].
  - intros [-> | []]. reflexivity.
  - destruct (int_of_str_cases p0) as [[z0 E0] | E0];
      [ | intros _; rewrite E0; reflexivity ].
    intros [-> | [-> | []]]; [ discriminate E0 | ].
    rewrite E0. reflexivity.
  - destruct (int_of_str_cases p0) as [[z0 E0] | E0];
      [ | intros _; rewrite E0; reflexivity ].
    destruct (int_of_str_cases p1) as [[z1 E1] | E1];
      [ | intros _; rewrite E0, E1; reflexivity ].
    intros [-> | [-> | [-> | []]]]; [ discriminate E0 | discriminate E1 | ].
    rewrite E0, E1. reflexivity.
Qed.

Lemma version_empty_component_raises_witness :
  init (VStr "11.") = Raise ValueError.
Proof.
  apply version_empty_component_raises. right. left. reflexivity.
Defined.

(** X4.  The constructor accepts an argument that is not text ([None], an
    int, a list ...) without complaint and leaves the instance without
    attributes; every comparison with such an instance, on either side, and
    [str] of it raise [AttributeError]. *)
Theorem version_from_non_text_is_unusable (arg : value) :
  not_text arg ->
  init arg = Ok NoAttrs /\
  (forall o,
      __eq__ NoAttrs o = Raise AttributeError /\ __eq__ o NoAttrs = Raise AttributeError /\
      __lt__ NoAttrs o = Raise AttributeError /\ __lt__ o NoAttrs = Raise AttributeError /\
      __le__ NoAttrs o = Raise AttributeError /\ __le__ o NoAttrs = Raise AttributeError /\
      __gt__ NoAttrs o = Raise AttributeError /\ __gt__ o NoAttrs = Raise AttributeError /\
      __ge__ NoAttrs o = Raise AttributeError /\ __ge__ o NoAttrs = Raise AttributeError) /\
  __str__ NoAttrs = Raise AttributeError.
Proof.
  intros N. split; [ | split; [ | reflexivity ] ].
  - destruct arg; try reflexivity. now destruct (N s).
  - intros [ | v ]; repeat split.
Qed.

Lemma version_from_non_text_is_unusable_witness :
  init (VInt 12) = Ok NoAttrs /\
  __le__ TARGET_BACKUP_MIN_VER NoAttrs = Raise AttributeError.
Proof.
  destruct (version_from_non_text_is_unusable (VInt 12)) as (I & C & _).
  - intros s. discriminate.
  - split; [ exact I | ].
    exact (proj1 (proj2 (proj2 (proj2 (proj2 (proj2 (C TARGET_BACKUP_MIN_VER))))))).
Defined.

(** ** What the version gate hands back *)

Section GateResults.

Lemma leb_false_lex (a b : iOSVersion) : leb a b = false -> lex_lt b a.
Proof.
  intros H.
  assert (N : ~ lex_le a b) by (rewrite <- leb_lex, H; discriminate).
  rewrite lex_le_triple in N.
  destruct a as [a1 a2 a3], b as [b1 b2 b3]; unfold lex_lt; simpl in *. lia.
Qed.

(** With minor and bugfix not negative only the major component counts. *)
Lemma leb_minimum (v : iOSVersion) :
  0 <= minor v -> 0 <= bugfix v ->
  leb (mkVersion 11 0 0) v = (11 <=? major v).
Proof.
  intros Hm Hb. apply eq_true_iff_eq.
  rewrite leb_lex, lex_le_triple, Z.leb_le.
  destruct v as [a b c]; simpl in *. lia.
Qed.

(** The result of the gate once the plist has loaded and the version has
    been built. *)
Lemma gate_on_version (w : world) (backup_dir : string) (info key : value)
    (v : iOSVersion) :
  os_path_exists w (info_plist w backup_dir) = true ->
  plist_at w (info_plist w backup_dir) = Loaded info ->
  dict_get info TARGET_BACKUP_INFO_KEY = Ok key ->
  init key = Ok (Attrs v) ->
  outcome (is_backup_compatible w backup_dir)
  = Ok (leb (mkVersion 11 0 0) v, Some (Attrs v)).
Proof.
  intros H P K I. rewrite (gate_loaded w backup_dir info H P).
  unfold outcome; cbn [snd]. rewrite K. cbn [rbind]. rewrite I. cbn [rbind].
  change TARGET_BACKUP_MIN_VER with (Attrs (mkVersion 11 0 0)).
  destruct (methods_on_attrs (mkVersion 11 0 0) v) as (_ & _ & -> & _).
  reflexivity.
Qed.

End GateResults.

(** X5.  What the gate can return.  [True] comes only with a version, and
    that version is at least 11.0.0; [False] comes either with no version or
    with one below 11.0.0; no version comes only when [Info.plist] is absent,
    unreadable or not a property list. *)
Theorem gate_result_shapes
    (w : world) (backup_dir : string) (b : bool) (ver : option instance) :
  outcome (is_backup_compatible w backup_dir) = Ok (b, ver) ->
  (b = true -> exists v, ver = Some (Attrs v) /\ lex_le (mkVersion 11 0 0) v) /\
  (b = false ->
   ver = None \/ exists v, ver = Some (Attrs v) /\ lex_lt v (mkVersion 11 0 0)) /\
  (ver = None ->
   os_path_exists w (info_plist w backup_dir) = false \/
   exists e, plist_at w (info_plist w backup_dir) = Unreadable e \/
             plist_at w (info_plist w backup_dir) = Malformed e).
Proof.
  destruct (os_path_exists w (info_plist w backup_dir)) eqn:H.
  - destruct (plist_at w (info_plist w backup_dir)) as [e | e | info] eqn:P.
    + rewrite (gate_not_loaded w backup_dir e H (or_introl P)).
      intros [= <- <-]. split; [ discriminate | ]. split; [ now left | ].
      intros _. right. exists e. now left.
    + rewrite (gate_not_loaded w backup_dir e H (or_intror P)).
      intros [= <- <-]. split; [ discriminate | ]. split; [ now left | ].
      intros _. right. exists e. now right.
    + destruct (dict_get info TARGET_BACKUP_INFO_KEY) as [key | x] eqn:K.
      2:{ rewrite (gate_loaded w backup_dir info H P).
          unfold outcome; cbn [snd]. rewrite K. discriminate. }
      destruct (init key) as [[ | v] | x] eqn:I.
      * rewrite (gate_loaded w backup_dir info H P).
        unfold outcome; cbn [snd]. rewrite K. cbn [rbind]. rewrite I. discriminate.
      * rewrite (gate_on_version w backup_dir info key v H P K I).
        intros [= <- <-]. split; [ | split; [ | discriminate ] ].
        -- intros L. exists v. split; [ reflexivity | now apply leb_lex ].
        -- intros L. right. exists v. split; [ reflexivity | now apply leb_false_lex ].
      * rewrite (gate_loaded w backup_dir info H P).
        unfold outcome; cbn [snd]. rewrite K. cbn [rbind]. rewrite I. discriminate.
  - rewrite (gate_absent w backup_dir H).
    intros [= <- <-]. split; [ discriminate | ]. split; [ now left | ].
    intros _. now left.
Qed.

Lemma gate_result_shapes_witness :
  exists v,
    Some (Attrs (mkVersion 12 1 2)) = Some (Attrs v) /\ lex_le (mkVersion 11 0 0) v.
Proof.
  exact (proj1 (gate_result_shapes
                  (demo_world (demo_info "12.1.2") (Files demo_rows)
                     ["/work/bk/Info.plist"])
                  "bk" true (Some (Attrs (mkVersion 12 1 2))) eq_refl) eq_refl).
Defined.

(** X6.  For a reported version whose minor and bugfix components are not
    negative the gate looks at the major component alone: the backup is
    compatible exactly when the major is 11 or more. *)
Theorem gate_decides_on_major
    (w : world) (backup_dir s : string) (v : iOSVersion) :
  reports w backup_dir s ->
  init (VStr s) = Ok (Attrs v) ->
  0 <= minor v -> 0 <= bugfix v ->
  outcome (is_backup_compatible w backup_dir)
  = Ok (11 <=? major v, Some (Attrs v)).
Proof.
  intros (d & (H & P) & K) I Hm Hb.
  rewrite (gate_on_version w backup_dir (VDict d) (VStr s) v H P K I).
  now rewrite leb_minimum.
Qed.

Lemma gate_decides_on_major_witness :
  outcome (is_backup_compatible
             (demo_world (demo_info "10.3.4") (Files demo_rows) ["/work/bk/Info.plist"])
             "bk")
  = Ok (false, Some (Attrs (mkVersion 10 3 4))).
Proof.
  apply (gate_decides_on_major _ "bk" "10.3.4" (mkVersion 10 3 4)).
  - apply demo_reports.
  - reflexivity.
  - simpl. lia.
  - simpl. lia.
Defined.

(** X7.  A property list that loads but whose root is not a dict, or whose
    "Product Version" is there without being text (an integer, a real, a
    list ...), makes the gate raise [AttributeError]. *)
Theorem gate_raises_on_non_text_version (w : world) (backup_dir : string) :
  (forall info,
      os_path_exists w (info_plist w backup_dir) = true ->
      plist_at w (info_plist w backup_dir) = Loaded info ->
      (forall d, info <> VDict d) ->
      outcome (is_backup_compatible w backup_dir) = Raise AttributeError) /\
  (forall d v,
      info_loads w backup_dir d ->
      dict_get (VDict d) TARGET_BACKUP_INFO_KEY = Ok v ->
      not_text v ->
      outcome (is_backup_compatible w backup_dir) = Raise AttributeError).
Proof.
  split.
  - intros info H P N. rewrite (gate_loaded w backup_dir info H P).
    unfold outcome; cbn [snd].
    destruct info; try reflexivity. now destruct (N d).
  - intros d v [H P] K N. rewrite (gate_loaded w backup_dir (VDict d) H P).
    unfold outcome; cbn [snd]. rewrite K. cbn [rbind].
    destruct v; try reflexivity. now destruct (N s).
Qed.

Lemma gate_raises_on_non_text_version_witness :
  outcome (is_backup_compatible
             (demo_world (Loaded (VList [VStr "12.1.2"])) (Files demo_rows)
                ["/work/bk/Info.plist"]) "bk")
  = Raise AttributeError /\
  outcome (is_backup_compatible
             (demo_world (Loaded (VDict [("Product Version", VInt 12)]))
                (Files demo_rows) ["/work/bk/Info.plist"]) "bk")
  = Raise AttributeError.
Proof.
  split.
  - apply (proj1 (gate_raises_on_non_text_version _ "bk") (VList [VStr "12.1.2"]));
      try reflexivity.
    intros d. discriminate.
  - apply (proj2 (gate_raises_on_non_text_version _ "bk")
             [("Product Version", VInt 12)] (VInt 12)).
    + split; reflexivity.
    + reflexivity.
    + intros s. discriminate.
Defined.

(** ** The connection to the manifest *)

(** X8.  The path resolver asks for a connection at most once, and whenever
    it returns, with a path or with null, it has called [close] once for
    each time it called [connect].  When the connection is open and the
    statement raises an error that is not an [OperationalError], the error
    leaves the resolver and [close] is not called.  When [connect] itself
    raises, no statement is run and [close] is not called. *)
Theorem find_closes_what_it_opens (w : world) (backup_dir ios_path : string) :
  (List.length
     (filter is_connect (trace (find_ios_backup_file w backup_dir ios_path))) <= 1)%nat /\
  (forall r,
      outcome (find_ios_backup_file w backup_dir ios_path) = Ok r ->
      List.length (filter is_close (trace (find_ios_backup_file w backup_dir ios_path)))
      = List.length
          (filter is_connect (trace (find_ios_backup_file w backup_dir ios_path)))) /\
  (forall e,
      os_path_exists w (manifest_db w backup_dir) = true ->
      connect (sqlite_at w (manifest_db w backup_dir)) = Ok tt ->
      execute (sqlite_at w (manifest_db w backup_dir)) (SelectByPath ios_path ios_path)
      = Raise e ->
      e <> OperationalError ->
      outcome (find_ios_backup_file w backup_dir ios_path) = Raise e /\
      filter is_connect (trace (find_ios_backup_file w backup_dir ios_path))
      = [Connect (manifest_db w backup_dir)] /\
      filter is_close (trace (find_ios_backup_file w backup_dir ios_path)) = []) /\
  (forall e,
      os_path_exists w (manifest_db w backup_dir) = true ->
      connect (sqlite_at w (manifest_db w backup_dir)) = Raise e ->
      outcome (find_ios_backup_file w backup_dir ios_path) = Raise e /\
      filter is_execute (trace (find_ios_backup_file w backup_dir ios_path)) = [] /\
      filter is_close (trace (find_ios_backup_file w backup_dir ios_path)) = []).
Proof.
  split; [ | split; [ | split ] ].
  - destruct (os_path_exists w (manifest_db w backup_dir)) eqn:H.
    + destruct (sqlite_at w (manifest_db w backup_dir)) as [ | | | rows ] eqn:T.
      * rewrite (find_cannot_connect w backup_dir ios_path OperationalError H);
          [ simpl; lia | now rewrite T ].
      * rewrite (find_other_error w backup_dir ios_path DatabaseError H);
          [ simpl; lia | now rewrite T | now rewrite T | discriminate ].
      * rewrite (find_operational_error w backup_dir ios_path H);
          [ simpl; lia | now rewrite T | now rewrite T ].
      * rewrite (find_on_table w backup_dir ios_path rows (conj H T)).
        destruct (filter _ rows) as [ | row sel ]; [ simpl; lia | ].
        cbv zeta.
        destruct (os_path_exists w (backup_file backup_dir (fileID row)));
          simpl; lia.
    + rewrite (find_absent w backup_dir ios_path H). simpl. lia.
  - destruct (os_path_exists w (manifest_db w backup_dir)) eqn:H.
    + destruct (sqlite_at w (manifest_db w backup_dir)) as [ | | | rows ] eqn:T.
      * rewrite (find_cannot_connect w backup_dir ios_path OperationalError H);
          [ discriminate | now rewrite T ].
      * rewrite (find_other_error w backup_dir ios_path DatabaseError H);
          [ discriminate | now rewrite T | now rewrite T | discriminate ].
      * rewrite (find_operational_error w backup_dir ios_path H);
          [ reflexivity | now rewrite T | now rewrite T ].
      * rewrite (find_on_table w backup_dir ios_path rows (conj H T)).
        destruct (filter _ rows) as [ | row sel ]; [ reflexivity | ].
        cbv zeta.
        destruct (os_path_exists w (backup_file backup_dir (fileID row)));
          reflexivity.
    + rewrite (find_absent w backup_dir ios_path H). reflexivity.
  - intros e H C X N.
    rewrite (find_other_error w backup_dir ios_path e H C X N). repeat split.
  - intros e H C.
    rewrite (find_cannot_connect w backup_dir ios_path e H C). repeat split.
Qed.

Lemma find_closes_what_it_opens_witness :
  outcome (find_ios_backup_file
             (demo_world (demo_info "12.1.2") NotADatabase ["/work/bk/Manifest.db"])
             "bk" "Library/SMS/sms.db")
  = Raise DatabaseError /\
  filter is_close
    (trace (find_ios_backup_file
              (demo_world (demo_info "12.1.2") NotADatabase ["/work/bk/Manifest.db"])
              "bk" "Library/SMS/sms.db"))
  = [] /\
  filter is_execute
    (trace (find_ios_backup_file
              (demo_world (demo_info "12.1.2") CannotOpen ["/work/bk/Manifest.db"])
              "bk" "Library/SMS/sms.db"))
  = [].
Proof.
  destruct (find_closes_what_it_opens
              (demo_world (demo_info "12.1.2") NotADatabase ["/work/bk/Manifest.db"])
              "bk" "Library/SMS/sms.db") as (_ & _ & Q & _).
  destruct (find_closes_what_it_opens
              (demo_world (demo_info "12.1.2") CannotOpen ["/work/bk/Manifest.db"])
              "bk" "Library/SMS/sms.db") as (_ & _ & _ & C).
  assert (N : DatabaseError <> OperationalError) by discriminate.
  destruct (Q DatabaseError eq_refl eq_refl eq_refl N) as (O & _ & L).
  destruct (C OperationalError eq_refl eq_refl) as (_ & X & _).
  exact (conj O (conj L X)).
Defined.

(** X9.  The bundle resolver asks for a connection at most once, and whenever
    it returns, with a list or with null, it has called [close] once for
    each time it called [connect].  When the connection is open and the
    first statement raises, whatever the error, the error leaves the
    resolver and [close] is not called.  When [connect] itself raises, no
    statement is run and [close] is not called. *)
Theorem bundle_closes_what_it_opens (w : world) (backup_dir bundle_identifier : string) :
  (List.length
     (filter is_connect
        (trace (get_app_folders_from_backup w backup_dir bundle_identifier))) <= 1)%nat /\
  (forall r,
      outcome (get_app_folders_from_backup w backup_dir bundle_identifier) = Ok r ->
      List.length
        (filter is_close
           (trace (get_app_folders_from_backup w backup_dir bundle_identifier)))
      = List.length
          (filter is_connect
             (trace (get_app_folders_from_backup w backup_dir bundle_identifier)))) /\
  (forall e,
      os_path_exists w (manifest_db w backup_dir) = true ->
      connect (sqlite_at w (manifest_db w backup_dir)) = Ok tt ->
      execute (sqlite_at w (manifest_db w backup_dir)) (SelectByDomain bundle_identifier)
      = Raise e ->
      outcome (get_app_folders_from_backup w backup_dir bundle_identifier) = Raise e /\
      filter is_connect
        (trace (get_app_folders_from_backup w backup_dir bundle_identifier))
      = [Connect (manifest_db w backup_dir)] /\
      filter is_close
        (trace (get_app_folders_from_backup w backup_dir bundle_identifier)) = []) /\
  (forall e,
      os_path_exists w (manifest_db w backup_dir) = true ->
      connect (sqlite_at w (manifest_db w backup_dir)) = Raise e ->
      outcome (get_app_folders_from_backup w backup_dir bundle_identifier) = Raise e /\
      filter is_execute
        (trace (get_app_folders_from_backup w backup_dir bundle_identifier)) = [] /\
      filter is_close
        (trace (get_app_folders_from_backup w backup_dir bundle_identifier)) = []).
Proof.
  split; [ | split; [ | split ] ].
  - destruct (os_path_exists w (manifest_db w backup_dir)) eqn:H.
    + destruct (sqlite_at w (manifest_db w backup_dir)) as [ | | | rows ] eqn:T.
      * rewrite (bundle_cannot_connect w backup_dir bundle_identifier OperationalError H);
          [ simpl; lia | now rewrite T ].
      * rewrite (bundle_query_error w backup_dir bundle_identifier DatabaseError H);
          [ simpl; lia | now rewrite T | now rewrite T ].
      * rewrite (bundle_query_error w backup_dir bundle_identifier OperationalError H);
          [ simpl; lia | now rewrite T | now rewrite T ].
      * rewrite (bundle_on_table w backup_dir bundle_identifier rows (conj H T)).
        destruct (exact_rows bundle_identifier rows);
          [ destruct (prefixed_rows bundle_identifier rows) | ]; simpl; lia.
    + rewrite (bundle_absent w backup_dir bundle_identifier H). simpl. lia.
  - destruct (os_path_exists w (manifest_db w backup_dir)) eqn:H.
    + destruct (sqlite_at w (manifest_db w backup_dir)) as [ | | | rows ] eqn:T.
      * rewrite (bundle_cannot_connect w backup_dir bundle_identifier OperationalError H);
          [ discriminate | now rewrite T ].
      * rewrite (bundle_query_error w backup_dir bundle_identifier DatabaseError H);
          [ discriminate | now rewrite T | now rewrite T ].
      * rewrite (bundle_query_error w backup_dir bundle_identifier OperationalError H);
          [ discriminate | now rewrite T | now rewrite T ].
      * rewrite (bundle_on_table w backup_dir bundle_identifier rows (conj H T)).
        destruct (exact_rows bundle_identifier rows);
          [ destruct (prefixed_rows bundle_identifier rows) | ]; reflexivity.
    + rewrite (bundle_absent w backup_dir bundle_identifier H). reflexivity.
  - intros e H C X.
    rewrite (bundle_query_error w backup_dir bundle_identifier e H C X). repeat split.
  - intros e H C.
    rewrite (bundle_cannot_connect w backup_dir bundle_identifier e H C). repeat split.
Qed.

Lemma bundle_closes_what_it_opens_witness :
  outcome (get_app_folders_from_backup
             (demo_world (demo_info "12.1.2") SchemaMismatch ["/work/bk/Manifest.db"])
             "bk" "com.facebook.Facebook")
  = Raise OperationalError /\
  filter is_close
    (trace (get_app_folders_from_backup
              (demo_world (demo_info "12.1.2") SchemaMismatch ["/work/bk/Manifest.db"])
              "bk" "com.facebook.Facebook"))
  = [] /\
  filter is_execute
    (trace (get_app_folders_from_backup
              (demo_world (demo_info "12.1.2") CannotOpen ["/work/bk/Manifest.db"])
              "bk" "com.facebook.Facebook"))
  = [].
Proof.
  destruct (bundle_closes_what_it_opens
              (demo_world (demo_info "12.1.2") SchemaMismatch ["/work/bk/Manifest.db"])
              "bk" "com.facebook.Facebook") as (_ & _ & Q & _).
  destruct (bundle_closes_what_it_opens
              (demo_world (demo_info "12.1.2") CannotOpen ["/work/bk/Manifest.db"])
              "bk" "com.facebook.Facebook") as (_ & _ & _ & C).
  destruct (Q OperationalError eq_refl eq_refl eq_refl) as (O & _ & L).
  destruct (C OperationalError eq_refl eq_refl) as (_ & X & _).
  exact (conj O (conj L X)).
Defined.

(** ** Resolved files *)

Section ResolvedFiles.

Lemma endswith_sep_slash (s : string) : endswith_sep (s ++ "/") = true.
Proof. now rewrite endswith_sep_append. Qed.

Lemma join_step_trailing (dir b : string) :
  plain_dir dir -> join_step (dir ++ "/") b = join_step dir b.
Proof.
  intros [De Ds]. unfold join_step.
  destruct (startswith_sep b); [ reflexivity | ].
  rewrite endswith_sep_slash, De, Ds, orb_true_r. simpl orb. cbv iota.
  now rewrite append_assoc_str.
Qed.

Lemma backup_file_absolute (dir file_id : string) :
  startswith_sep file_id = true -> backup_file dir file_id = file_id.
Proof.
  intros A. unfold backup_file.
  change (os_path_join dir [slice_to 2 file_id; file_id])
    with (join_step (join_step dir (slice_to 2 file_id)) file_id).
  unfold join_step at 1. now rewrite A.
Qed.

End ResolvedFiles.

(** X10.  A trailing separator on the backup directory makes no difference
    to the resolved file: for a non-empty directory that does not end in "/",
    the file built from [dir/] is the file built from [dir]. *)
Theorem backup_file_trailing_separator (dir file_id : string) :
  plain_dir dir ->
  backup_file (dir ++ "/") file_id = backup_file dir file_id.
Proof.
  intros P. unfold backup_file.
  change (os_path_join (dir ++ "/") [slice_to 2 file_id; file_id])
    with (join_step (join_step (dir ++ "/") (slice_to 2 file_id)) file_id).
  change (os_path_join dir [slice_to 2 file_id; file_id])
    with (join_step (join_step dir (slice_to 2 file_id)) file_id).
  now rewrite (join_step_trailing dir _ P).
Qed.

Lemma backup_file_trailing_separator_witness :
  backup_file "/backups/phone/" "3d0d7e5fb2ce288813306e4d4636395e047a3d28"
  = backup_file "/backups/phone" "3d0d7e5fb2ce288813306e4d4636395e047a3d28".
Proof.
  apply (backup_file_trailing_separator "/backups/phone"). split; reflexivity.
Defined.

(** X11.  A manifest row whose [fileID] starts with "/" takes the resolvers
    out of the backup directory: the resolved file is the [fileID] itself,
    whatever the directory.  The bundle resolver reports it as it is; the
    path resolver returns it when the row is the first match and the path
    exists. *)
Theorem absolute_file_id_leaves_backup_dir (backup_dir : string) (e : entry) :
  startswith_sep (fileID e) = true ->
  reported backup_dir e = (fileID e, relativePath e) /\
  (forall w ios_path rows before after,
      manifest_holds w backup_dir rows ->
      rows = (before ++ e :: after)%list ->
      (forall e', In e' before -> ~ matches_path ios_path e') ->
      matches_path ios_path e ->
      outcome (find_ios_backup_file w backup_dir ios_path)
      = Ok (if os_path_exists w (fileID e) then Some (fileID e) else None)).
Proof.
  intros A. split.
  - unfold reported. now rewrite (backup_file_absolute backup_dir _ A).
  - intros w ios_path rows before after M R B Y.
    rewrite (find_first_match w backup_dir ios_path rows before e after M R B Y).
    now rewrite (backup_file_absolute backup_dir _ A).
Qed.

Lemma absolute_file_id_leaves_backup_dir_witness :
  outcome (find_ios_backup_file
             (demo_world (demo_info "12.1.2") (Files hostile_rows)
                ["/work/bk/Manifest.db"; "/etc/passwd"])
             "bk" "Library/Preferences/x.plist")
  = Ok (Some "/etc/passwd").
Proof.
  refine (proj2 (absolute_file_id_leaves_backup_dir "bk"
                   (mkEntry "/etc/passwd" "HomeDomain" "Library/Preferences/x.plist")
                   eq_refl)
            (demo_world (demo_info "12.1.2") (Files hostile_rows)
               ["/work/bk/Manifest.db"; "/etc/passwd"])
            "Library/Preferences/x.plist" hostile_rows [] demo_rows
            (conj eq_refl eq_refl) eq_refl _ _).
  - intros e' [].
  - left. reflexivity.
Defined.

(** X12.  A list returned by the bundle resolver is never empty, and all its
    pairs come from the rows of one domain: the identifier as given, or,
    only when no row has that domain, the identifier behind "AppDomain-".
    Rows of the two domains are never mixed. *)
Theorem bundle_rows_share_one_domain
    (w : world) (backup_dir bundle_identifier : string) (l : list (string * string)) :
  outcome (get_app_folders_from_backup w backup_dir bundle_identifier) = Ok (Some l) ->
  l <> [] /\
  exists rows d,
    manifest_holds w backup_dir rows /\
    (d = bundle_identifier \/
     (d = "AppDomain-" ++ bundle_identifier /\
      forall e, In e rows -> domain e <> bundle_identifier)) /\
    l = map (reported backup_dir) (filter (in_domain d) rows).
Proof.
  intros S.
  destruct (bundle_some_table w backup_dir bundle_identifier l S) as (rows & M & L & N).
  split; [ exact N | ].
  exists rows. unfold chosen_rows in L.
  destruct (exact_rows bundle_identifier rows) as [ | r c ] eqn:E.
  - exists ("AppDomain-" ++ bundle_identifier). split; [ exact M | ].
    split; [ | exact L ].
    right. split; [ reflexivity | ].
    intros e I D.
    assert (X : In e (exact_rows bundle_identifier rows))
      by (apply in_domain_rows; now split).
    now rewrite E in X.
  - exists bundle_identifier. split; [ exact M | ]. split; [ now left | ].
    rewrite L. fold (exact_rows bundle_identifier rows). now rewrite E.
Qed.

Lemma bundle_rows_share_one_domain_witness :
  [("bk/3d/3d0d7e5fb2ce288813306e4d4636395e047a3d28", "Library/SMS/sms.db")]
  <> @nil (string * string) /\
  exists rows d,
    manifest_holds
      (demo_world (demo_info "12.1.2") (Files demo_rows) ["/work/bk/Manifest.db"])
      "bk" rows /\
    (d = "HomeDomain" \/
     (d = "AppDomain-" ++ "HomeDomain" /\
      forall e, In e rows -> domain e <> "HomeDomain")) /\
    [("bk/3d/3d0d7e5fb2ce288813306e4d4636395e047a3d28", "Library/SMS/sms.db")]
    = map (reported "bk") (filter (in_domain d) rows).
Proof.
  exact (bundle_rows_share_one_domain
           (demo_world (demo_info "12.1.2") (Files demo_rows) ["/work/bk/Manifest.db"])
           "bk" "HomeDomain" _ eq_refl).
Defined.

(** ** The program as a whole *)

Section ProgramOutcomes.

Variable w : world.

Lemma init_error (arg : value) (e : exn) : init arg = Raise e -> e = ValueError.
Proof.
  destruct arg; try discriminate. rewrite init_text. unfold part_or_zero.
  destruct (int_of_str (hd "" (split_dot s))) as [z0 | x] eqn:E0; cbn [rbind].
  2:{ intros [= <-]. now apply int_of_str_error in E0. }
  destruct (nth_error (split_dot s) 1) as [p1 | ].
  - destruct (int_of_str p1) as [z1 | x] eqn:E1; cbn [rbind].
    2:{ intros [= <-]. now apply int_of_str_error in E1. }
    destruct (nth_error (split_dot s) 2) as [p2 | ]; [ | discriminate ].
    destruct (int_of_str p2) as [z2 | x] eqn:E2; cbn [rbind]; [ discriminate | ].
    intros [= <-]. now apply int_of_str_error in E2.
  - cbn [rbind].
    destruct (nth_error (split_dot s) 2) as [p2 | ]; [ | discriminate ].
    destruct (int_of_str p2) as [z2 | x] eqn:E2; cbn [rbind]; [ discriminate | ].
    intros [= <-]. now apply int_of_str_error in E2.
Qed.

(** The gate raises nothing but [AttributeError] and [ValueError] ... *)
Lemma gate_raises (backup_dir : string) (e : exn) :
  outcome (is_backup_compatible w backup_dir) = Raise e ->
  e = AttributeError \/ e = ValueError.
Proof.
  destruct (os_path_exists w (info_plist w backup_dir)) eqn:H.
  - destruct (plist_at w (info_plist w backup_dir)) as [x | x | info] eqn:P.
    + rewrite (gate_not_loaded w backup_dir x H (or_introl P)). discriminate.
    + rewrite (gate_not_loaded w backup_dir x H (or_intror P)). discriminate.
    + rewrite (gate_loaded w backup_dir info H P). unfold outcome; cbn [snd].
      destruct (dict_get info TARGET_BACKUP_INFO_KEY) as [key | x] eqn:K; cbn [rbind].
      2:{ intros [= <-]. left. unfold dict_get in K.
          destruct info; try (now injection K as <-).
          destruct (find _ d); discriminate. }
      destruct (init key) as [[ | v] | x] eqn:I; cbn [rbind].
      * intros [= <-]. now left.
      * change TARGET_BACKUP_MIN_VER with (Attrs (mkVersion 11 0 0)).
        destruct (methods_on_attrs (mkVersion 11 0 0) v) as (_ & _ & -> & _).
        discriminate.
      * intros [= <-]. right. now apply init_error in I.
  - rewrite (gate_absent w backup_dir H). discriminate.
Qed.

(** ... and the resolvers nothing but the two SQLite errors. *)
Lemma find_raises (backup_dir ios_path : string) (e : exn) :
  outcome (find_ios_backup_file w backup_dir ios_path) = Raise e ->
  e = OperationalError \/ e = DatabaseError.
Proof.
  destruct (os_path_exists w (manifest_db w backup_dir)) eqn:H.
  - destruct (sqlite_at w (manifest_db w backup_dir)) as [ | | | rows ] eqn:T.
    + rewrite (find_cannot_connect w backup_dir ios_path OperationalError H);
        [ | now rewrite T ].
      intros [= <-]. now left.
    + rewrite (find_other_error w backup_dir ios_path DatabaseError H);
        [ | now rewrite T | now rewrite T | discriminate ].
      intros [= <-]. now right.
    + rewrite (find_operational_error w backup_dir ios_path H);
        [ discriminate | now rewrite T | now rewrite T ].
    + rewrite (find_on_table w backup_dir ios_path rows (conj H T)).
      destruct (filter _ rows) as [ | row sel ]; [ discriminate | ].
      cbv zeta.
      destruct (os_path_exists w (backup_file backup_dir (fileID row))); discriminate.
  - rewrite (find_absent w backup_dir ios_path H). discriminate.
Qed.

Lemma bundle_raises (backup_dir bundle_identifier : string) (e : exn) :
  outcome (get_app_folders_from_backup w backup_dir bundle_identifier) = Raise e ->
  e = OperationalError \/ e = DatabaseError.
Proof.
  destruct (os_path_exists w (manifest_db w backup_dir)) eqn:H.
  - destruct (sqlite_at w (manifest_db w backup_dir)) as [ | | | rows ] eqn:T.
    + rewrite (bundle_cannot_connect w backup_dir bundle_identifier OperationalError H);
        [ | now rewrite T ].
      intros [= <-]. now left.
    + rewrite (bundle_query_error w backup_dir bundle_identifier DatabaseError H);
        [ | now rewrite T | now rewrite T ].
      intros [= <-]. now right.
    + rewrite (bundle_query_error w backup_dir bundle_identifier OperationalError H);
        [ | now rewrite T | now rewrite T ].
      intros [= <-]. now left.
    + rewrite (bundle_outcome w backup_dir bundle_identifier rows (conj H T)).
      discriminate.
  - rewrite (bundle_absent w backup_dir bundle_identifier H). discriminate.
Qed.

(** What the gate and the resolvers print on their good paths: nothing. *)
Lemma gate_silent_with_version (backup_dir : string) (b : bool) (t : instance) :
  outcome (is_backup_compatible w backup_dir) = Ok (b, Some t) ->
  printed (is_backup_compatible w backup_dir) = [].
Proof.
  unfold printed.
  destruct (os_path_exists w (info_plist w backup_dir)) eqn:H.
  - destruct (plist_at w (info_plist w backup_dir)) as [x | x | info] eqn:P.
    + rewrite (gate_not_loaded w backup_dir x H (or_introl P)). discriminate.
    + rewrite (gate_not_loaded w backup_dir x H (or_intror P)). discriminate.
    + rewrite (gate_loaded w backup_dir info H P). reflexivity.
  - rewrite (gate_absent w backup_dir H). discriminate.
Qed.

Lemma find_silent_with_path (backup_dir ios_path f : string) :
  outcome (find_ios_backup_file w backup_dir ios_path) = Ok (Some f) ->
  printed (find_ios_backup_file w backup_dir ios_path) = [].
Proof.
  intros S. destruct (find_some_table w backup_dir ios_path f S) as [rows M].
  revert S. unfold printed. rewrite (find_on_table w backup_dir ios_path rows M).
  destruct (filter _ rows) as [ | row sel ]; [ discriminate | ].
  cbv zeta.
  destruct (os_path_exists w (backup_file backup_dir (fileID row)));
    [ reflexivity | discriminate ].
Qed.

Lemma bundle_silent_with_list (backup_dir bundle_identifier : string)
    (l : list (string * string)) :
  outcome (get_app_folders_from_backup w backup_dir bundle_identifier) = Ok (Some l) ->
  printed (get_app_folders_from_backup w backup_dir bundle_identifier) = [].
Proof.
  intros S.
  destruct (bundle_some_table w backup_dir bundle_identifier l S) as (rows & M & _ & _).
  revert S. unfold printed.
  rewrite (bundle_on_table w backup_dir bundle_identifier rows M).
  destruct (exact_rows bundle_identifier rows); [ | reflexivity ].
  destruct (prefixed_rows bundle_identifier rows); [ discriminate | reflexivity ].
Qed.

End ProgramOutcomes.

(** X13.  Once the command line is parsed, the program never calls [exit]
    with a code other than 0, -1 and -2; it gets to 0 or -1 only with a
    lookup flag given, and it returns without calling [exit] only with
    neither flag. *)
Theorem main_outcomes (w : world) (a : args) :
  (forall code,
      outcome (main w a) = Raise (SystemExit code) ->
      code = -2 \/
      ((code = 0 \/ code = -1) /\ (path a <> None \/ bundle a <> None))) /\
  (outcome (main w a) = Ok tt -> path a = None /\ bundle a = None).
Proof.
  destruct (outcome (is_backup_compatible w (search_path a)))
    as [[[ | ] ver] | x] eqn:G.
  - destruct (path a) as [p | ] eqn:P; [ | destruct (bundle a) as [b | ] eqn:B ].
    + rewrite (main_path_lookup w a ver p G P). cbv zeta.
      pose proof (find_raises w (search_path a) p) as R.
      destruct (outcome (find_ios_backup_file w (search_path a) p))
        as [[f | ] | x]; unfold outcome; cbn [snd].
      * split; [ | discriminate ].
        intros code [= <-]. right. split; [ now left | left; discriminate ].
      * split; [ | discriminate ].
        intros code [= <-]. right. split; [ now right | left; discriminate ].
      * destruct (R x eq_refl) as [-> | ->]; split; discriminate.
    + rewrite (main_bundle_lookup w a ver b G P B). cbv zeta.
      pose proof (bundle_raises w (search_path a) b) as R.
      destruct (outcome (get_app_folders_from_backup w (search_path a) b))
        as [[l | ] | x]; unfold outcome; cbn [snd].
      * split; [ | discriminate ].
        intros code [= <-]. right. split; [ now left | right; discriminate ].
      * split; [ | discriminate ].
        intros code [= <-]. right. split; [ now right | right; discriminate ].
      * destruct (R x eq_refl) as [-> | ->]; split; discriminate.
    + rewrite (main_no_lookup w a ver G P B). unfold outcome; cbn [snd].
      split; [ discriminate | now split ].
  - destruct (main_incompatible w a ver G) as (v & _ & ->).
    unfold outcome; cbn [snd].
    split; [ intros code [= <-]; now left | discriminate ].
  - rewrite (main_gate_raises w a x G). unfold outcome; cbn [snd].
    destruct (gate_raises w (search_path a) x G) as [-> | ->]; split; discriminate.
Qed.

(** X14.  On a successful lookup the program prints exactly one line: the
    path found, or for a bundle the heading and one "file -> relativePath"
    line per pair, in the order of the list. *)
Theorem main_success_output (w : world) (a : args) (t : instance) :
  outcome (is_backup_compatible w (search_path a)) = Ok (true, Some t) ->
  (forall p f,
      path a = Some p ->
      outcome (find_ios_backup_file w (search_path a) p) = Ok (Some f) ->
      printed (main w a) = [Print ("[+] Found: " ++ f)]) /\
  (forall id l,
      path a = None -> bundle a = Some id ->
      outcome (get_app_folders_from_backup w (search_path a) id) = Ok (Some l) ->
      printed (main w a)
      = [Print ("[+] Found:" ++ newline ++
                str_join newline (map (fun xy => fst xy ++ " -> " ++ snd xy) l))%string]).
Proof.
  intros G.
  pose proof (gate_silent_with_version w (search_path a) true t G) as Q.
  unfold printed in *. split.
  - intros p f P F.
    pose proof (find_silent_with_path w (search_path a) p f F) as S.
    unfold printed in S.
    rewrite (main_path_lookup w a (Some t) p G P). cbv zeta. rewrite F.
    unfold trace in *; cbn [fst]. rewrite !filter_app, Q, S. reflexivity.
  - intros id l P B F.
    pose proof (bundle_silent_with_list w (search_path a) id l F) as S.
    unfold printed in S.
    rewrite (main_bundle_lookup w a (Some t) id G P B). cbv zeta. rewrite F.
    unfold trace in *; cbn [fst]. rewrite !filter_app, Q, S. reflexivity.
Qed.

Lemma main_success_output_witness :
  printed (main (demo_world (demo_info "12.1.2") (Files demo_rows)
                   ["/work/bk/Info.plist"; "/work/bk/Manifest.db";
                    "bk/3d/3d0d7e5fb2ce288813306e4d4636395e047a3d28"])
                (mkArgs (Some "Library/SMS/sms.db") None "bk"))
  = [Print "[+] Found: bk/3d/3d0d7e5fb2ce288813306e4d4636395e047a3d28"] /\
  printed (main (demo_world (demo_info "12.1.2") (Files demo_rows)
                   ["/work/bk/Info.plist"; "/work/bk/Manifest.db"])
                (mkArgs None (Some "com.facebook.Facebook") "bk"))
  = [Print ("[+] Found:" ++ newline ++
            "bk/a1/a1b2c3d4e5f60718293a4b5c6d7e8f9012345678 -> Documents/a.txt" ++
            newline ++
            "bk/ff/ffeeddccbbaa99887766554433221100ffeeddcc -> Library/SMS/sms.db")].
Proof.
  split.
  - exact (proj1 (main_success_output
                    (demo_world (demo_info "12.1.2") (Files demo_rows)
                       ["/work/bk/Info.plist"; "/work/bk/Manifest.db";
                        "bk/3d/3d0d7e5fb2ce288813306e4d4636395e047a3d28"])
                    (mkArgs (Some "Library/SMS/sms.db") None "bk")
                    (Attrs (mkVersion 12 1 2)) eq_refl)
             "Library/SMS/sms.db" _ eq_refl eq_refl).
  - exact (proj2 (main_success_output
                    (demo_world (demo_info "12.1.2") (Files demo_rows)
                       ["/work/bk/Info.plist"; "/work/bk/Manifest.db"])
                    (mkArgs None (Some "com.facebook.Facebook") "bk")
                    (Attrs (mkVersion 12 1 2)) eq_refl)
             "com.facebook.Facebook" _ eq_refl eq_refl eq_refl).
Defined.

(** X15.  What is printed when the gate turns the backup down.  With a
    version below the minimum it is the one line naming that version as
    major.minor.bugfix; with no [Info.plist], or one that cannot be read or
    parsed, it is the gate's own message followed by the same line with
    "None" in place of the version. *)
Theorem main_incompatible_output (w : world) (a : args) :
  (forall v,
      outcome (is_backup_compatible w (search_path a)) = Ok (false, Some (Attrs v)) ->
      printed (main w a)
      = [Print ("[-] Backup: "
                ++ (str_of_int (major v) ++ "." ++ str_of_int (minor v)
                    ++ "." ++ str_of_int (bugfix v))
                ++ " is not supported (min 11.0.0)")]) /\
  (os_path_exists w (info_plist w (search_path a)) = false ->
   printed (main w a)
   = [Print ("[!] Info.plist: not found in " ++ search_path a);
      Print "[-] Backup: None is not supported (min 11.0.0)"]) /\
  (forall e,
      os_path_exists w (info_plist w (search_path a)) = true ->
      plist_at w (info_plist w (search_path a)) = Unreadable e \/
      plist_at w (info_plist w (search_path a)) = Malformed e ->
      printed (main w a)
      = [Print ("[!] Info.plist: " ++ e);
         Print "[-] Backup: None is not supported (min 11.0.0)"]).
Proof.
  split; [ | split ].
  - intros v G.
    pose proof (gate_silent_with_version w (search_path a) false (Attrs v) G) as Q.
    destruct (main_incompatible w a (Some (Attrs v)) G) as (s & F & E).
    simpl in F. injection F as <-.
    unfold printed in *. rewrite E. unfold trace in *; cbn [fst].
    rewrite filter_app, Q. reflexivity.
  - intros H.
    assert (G : outcome (is_backup_compatible w (search_path a)) = Ok (false, None))
      by now rewrite (gate_absent w (search_path a) H).
    destruct (main_incompatible w a None G) as (s & F & E).
    simpl in F. injection F as <-.
    unfold printed. rewrite E. unfold trace; cbn [fst].
    rewrite (gate_absent w (search_path a) H). reflexivity.
  - intros e H P.
    assert (G : outcome (is_backup_compatible w (search_path a)) = Ok (false, None))
      by now rewrite (gate_not_loaded w (search_path a) e H P).
    destruct (main_incompatible w a None G) as (s & F & E).
    simpl in F. injection F as <-.
    unfold printed. rewrite E. unfold trace; cbn [fst].
    rewrite (gate_not_loaded w (search_path a) e H P). reflexivity.
Qed.

Lemma main_incompatible_output_witness :
  printed (main (demo_world (demo_info "10.3") (Files demo_rows)
                   ["/work/bk/Info.plist"; "/work/bk/Manifest.db"])
                (mkArgs (Some "Library/SMS/sms.db") None "bk"))
  = [Print "[-] Backup: 10.3.0 is not supported (min 11.0.0)"] /\
  printed (main (demo_world (demo_info "12.1.2") (Files demo_rows) [])
                (mkArgs (Some "Library/SMS/sms.db") None "bk"))
  = [Print "[!] Info.plist: not found in bk";
     Print "[-] Backup: None is not supported (min 11.0.0)"].
Proof.
  split.
  - exact (proj1 (main_incompatible_output
                    (demo_world (demo_info "10.3") (Files demo_rows)
                       ["/work/bk/Info.plist"; "/work/bk/Manifest.db"])
                    (mkArgs (Some "Library/SMS/sms.db") None "bk"))
             (mkVersion 10 3 0) eq_refl).
  - exact (proj1 (proj2 (main_incompatible_output
                           (demo_world (demo_info "12.1.2") (Files demo_rows) [])
                           (mkArgs (Some "Library/SMS/sms.db") None "bk")))
             eq_refl).
Defined.

(** X16.  What is printed when a path lookup finds nothing on a compatible
    backup with its manifest table in place.  If no row matches, the
    resolver is silent and the only line is "File not found."; if the first
    matching row's file is not on disk, the resolver first names the file it
    expected. *)
Theorem main_path_failure_output
    (w : world) (a : args) (t : instance) (p : string) (rows : list entry) :
  outcome (is_backup_compatible w (search_path a)) = Ok (true, Some t) ->
  path a = Some p ->
  manifest_holds w (search_path a) rows ->
  ((forall e, In e rows -> ~ matches_path p e) ->
   printed (main w a) = [Print "[-] File not found."]) /\
  (forall before e after,
      rows = (before ++ e :: after)%list ->
      (forall e', In e' before -> ~ matches_path p e') ->
      matches_path p e ->
      os_path_exists w (backup_file (search_path a) (fileID e)) = false ->
      printed (main w a)
      = [Print ("[!] Expected file not found at "
                ++ backup_file (search_path a) (fileID e));
         Print "[-] File not found."]).
Proof.
  intros G P M.
  pose proof (gate_silent_with_version w (search_path a) true t G) as Q.
  unfold printed in *.
  rewrite (main_path_lookup w a (Some t) p G P). cbv zeta.
  rewrite (find_on_table w (search_path a) p rows M). split.
  - intros N. rewrite (filter_nothing (selects (SelectByPath p p)) rows).
    + cbv beta iota zeta.
      unfold outcome, trace in *; cbn [fst snd]. rewrite !filter_app, Q. reflexivity.
    + intros e I. apply selects_path_false. now apply N.
  - intros before e after -> B Y X.
    rewrite (filter_first (selects (SelectByPath p p)) before e after).
    + cbv beta iota zeta. rewrite X.
      unfold outcome, trace in *; cbn [fst snd]. rewrite !filter_app, Q. reflexivity.
    + intros e' I. apply selects_path_false. now apply B.
    + now apply selects_path.
Qed.

Lemma main_path_failure_output_witness :
  printed (main (demo_world (demo_info "12.1.2") (Files demo_rows)
                   ["/work/bk/Info.plist"; "/work/bk/Manifest.db"])
                (mkArgs (Some "Library/SMS/sms.db") None "bk"))
  = [Print "[!] Expected file not found at bk/3d/3d0d7e5fb2ce288813306e4d4636395e047a3d28";
     Print "[-] File not found."].
Proof.
  refine (proj2 (main_path_failure_output
                   (demo_world (demo_info "12.1.2") (Files demo_rows)
                      ["/work/bk/Info.plist"; "/work/bk/Manifest.db"])
                   (mkArgs (Some "Library/SMS/sms.db") None "bk")
                   (Attrs (mkVersion 12 1 2)) "Library/SMS/sms.db" demo_rows
                   eq_refl eq_refl (conj eq_refl eq_refl))
            [] (hd (mkEntry "" "" "") demo_rows) (tl demo_rows) eq_refl _ _ eq_refl).
  - intros e' [].
  - left. reflexivity.
Defined.
